(** * Invoice extraction pipeline (extract_invoices_deepseek.py)

    A shallow embedding of [DeepSeekInvoiceExtractor]: the page chunker,
    the completion client with its bracket-scanning JSON recovery, the
    first-write-wins deduplication and the pipeline that chains them.

    Conventions.
    - A Python [str] is a [string]; a character is a code point below 256.
      On that range [\d] is exactly [0-9] and [str.isspace] is the set
      listed in [isspace].
    - A Python [int] is a [Z]; [len] is [Z.of_nat (String.length _)].
    - Library calls the program does not define (the OCR and PDF readers,
      [requests.post], [json.loads], [str] on values that are not a [str])
      are capabilities, the fields of [Lib.Env]; the effectful ones run
      against an explicit world state, and each of them, [json.loads]
      included, either returns a value or raises.
    - [print] only logs and is left out; so is [export_to_excel], which
      the pipeline does not call. *)

From Stdlib Require Import ZArith List Bool Lia.
From Stdlib Require Import Ascii String DecimalString Strings.Byte.
Import ListNotations.

Set Warnings "-register-all".

Open Scope string_scope.
Open Scope Z_scope.

(** ** Strings as Python uses them *)

Module PyStr.

Definition len (s : string) : Z := Z.of_nat (String.length s).

(** Truth value of a [str]: non-empty. *)
Definition truthy (s : string) : bool :=
  match s with
  | EmptyString => false
  | String _ _ => true
  end.

(** [\d] on code points below 256. *)
Definition isdigit (c : ascii) : bool :=
  let n := nat_of_ascii c in (48 <=? n)%nat && (n <=? 57)%nat.

(** [str.isspace] on code points below 256: TAB..CR, FS..US, space,
    NEL and NBSP. *)
Definition isspace (c : ascii) : bool :=
  let n := nat_of_ascii c in
  ((9 <=? n)%nat && (n <=? 13)%nat) || ((28 <=? n)%nat && (n <=? 32)%nat)
  || (n =? 133)%nat || (n =? 160)%nat.

Fixpoint lstrip (s : string) : string :=
  match s with
  | EmptyString => EmptyString
  | String c s' => if isspace c then lstrip s' else s
  end.

Fixpoint rev (s : string) : string :=
  match s with
  | EmptyString => EmptyString
  | String c s' => rev s' ++ String c EmptyString
  end.

Definition rstrip (s : string) : string := rev (lstrip (rev s)).

Definition strip (s : string) : string := rstrip (lstrip s).

(** [s.startswith(p)], returning what follows the prefix. *)
Fixpoint drop_prefix (p s : string) : option string :=
  match p with
  | EmptyString => Some s
  | String a p' =>
      match s with
      | EmptyString => None
      | String b s' => if Ascii.eqb a b then drop_prefix p' s' else None
      end
  end.

(** [s.find(c)] for a one-character needle: the first index, or [-1]. *)
Fixpoint find_from (i : Z) (c : ascii) (s : string) : Z :=
  match s with
  | EmptyString => -1
  | String a s' => if Ascii.eqb a c then i else find_from (i + 1) c s'
  end.

Definition find (s : string) (c : ascii) : Z := find_from 0 c s.

(** [s.rfind(c)]: the last index, or [-1]. *)
Fixpoint rfind_from (i : Z) (c : ascii) (s : string) (last : Z) : Z :=
  match s with
  | EmptyString => last
  | String a s' =>
      rfind_from (i + 1) c s' (if Ascii.eqb a c then i else last)
  end.

Definition rfind (s : string) (c : ascii) : Z := rfind_from 0 c s (-1).

(** [s[lo:hi]] for indices that are not negative. *)
Definition slice (s : string) (lo hi : Z) : string :=
  String.substring (Z.to_nat lo) (Z.to_nat (hi - lo)) s.

(** Whether [c] occurs in [s]. *)
Fixpoint occurs (c : ascii) (s : string) : bool :=
  match s with
  | EmptyString => false
  | String a s' => Ascii.eqb a c || occurs c s'
  end.

(** [str(n)] for a natural number. *)
Definition of_nat (n : nat) : string :=
  NilZero.string_of_uint (Nat.to_uint n).

End PyStr.

(** ** Chunker: [split_text_into_chunks] *)

Module Chunker.
Import PyStr.

(** The digits of [\d+] after the first one: drop the longest run. *)
Fixpoint skip_digits (s : string) : string :=
  match s with
  | EmptyString => EmptyString
  | String c s' => if isdigit c then skip_digits s' else s
  end.

(** A match of [===== Page \d+ =====] anchored at the head of [s]; the
    result is what follows the match.  The digit run is taken whole: the
    character after it has to be a space, so giving digits back can never
    help. *)
Definition match_marker (s : string) : option string :=
  match drop_prefix "===== Page " s with
  | Some (String c r) =>
      if isdigit c then drop_prefix " =====" (skip_digits r) else None
  | _ => None
  end.

(** Number of characters the match at the head of [s] consumes. *)
Definition marker_length (s : string) : option nat :=
  match match_marker s with
  | Some r => Some (String.length s - String.length r)%nat
  | None => None
  end.

(** [re.split(r'===== Page \d+ =====', text)]: scan left to right; [skip]
    counts the characters of the current match still to be passed over,
    [cur] is the piece collected since the last match. *)
Fixpoint re_split_from (skip : nat) (cur : string) (s : string)
  : list string :=
  match s with
  | EmptyString => [cur]
  | String c s' =>
      match skip with
      | S k => re_split_from k cur s'
      | O =>
          match marker_length s with
          | Some (S k) => cur :: re_split_from k EmptyString s'
          | _ => re_split_from 0 (cur ++ String c EmptyString) s'
          end
      end
  end.

Definition re_split (text : string) : list string :=
  re_split_from 0 EmptyString text.

(** [[page for page in pages if page.strip()]] *)
Definition nonblank_pages (text : string) : list string :=
  filter (fun page => truthy (strip page)) (re_split text).

(** The text put between two pages of one chunk. *)
Definition page_sep : string :=
  String "010" ("===== Page =====" ++ String "010" EmptyString).

(** One turn of the [for page in pages] loop on [(chunks, current_chunk)]. *)
Definition pack_step (max_chars : Z) (st : list string * string)
    (page : string) : list string * string :=
  let '(chunks, current_chunk) := st in
  if len current_chunk + len page >? max_chars
  then ((chunks ++ [current_chunk])%list, page)
  else (chunks, current_chunk ++ page_sep ++ page).

Definition pack_loop (max_chars : Z) (pages : list string)
  : list string * string :=
  fold_left (pack_step max_chars) pages ([], EmptyString).

(** The trailing [if current_chunk: chunks.append(current_chunk)]. *)
Definition flush (st : list string * string) : list string :=
  let '(chunks, current_chunk) := st in
  if truthy current_chunk then (chunks ++ [current_chunk])%list else chunks.

Definition split_text_into_chunks (text : string) (max_tokens : Z)
  : list string :=
  let max_chars := max_tokens * 4 in
  let pages := nonblank_pages text in
  flush (pack_loop max_chars pages).

Definition default_max_tokens : Z := 100000.

End Chunker.

(** ** Python values and exceptions *)

Module Py.

(** What [json.loads] and [response.json()] can produce. A [dict] keeps
    its items in insertion order, under distinct keys; a float keeps its
    [repr]. *)
Inductive pyval : Type :=
| PNone
| PBool (b : bool)
| PInt (n : Z)
| PFloat (repr : string)
| PStr (s : string)
| PList (items : list pyval)
| PDict (items : list (string * pyval)).

(** The exception classes that occur. [JSONDecodeError] is a subclass of
    [ValueError]; [RecursionError] is what [json.loads] raises on brackets
    nested too deep.  [LibraryError] is whatever else a capability raises
    itself (a connection error, an OCR failure, ...), of none of the
    classes above it. *)
Inductive exn : Type :=
| AttributeError
| KeyError
| IndexError
| TypeError
| JSONDecodeError
| ValueError
| RecursionError
| LibraryError (name : string).

Inductive result (A : Type) : Type :=
| Ok (a : A)
| Raise (e : exn).
Arguments Ok {A} a.
Arguments Raise {A} e.

Definition bindR {A B} (r : result A) (k : A -> result B) : result B :=
  match r with
  | Ok a => k a
  | Raise e => Raise e
  end.

(** A [for] loop whose body may raise. *)
Fixpoint foldR {A S} (body : S -> A -> result S) (xs : list A) (s : S)
  : result S :=
  match xs with
  | [] => Ok s
  | x :: xs' => bindR (body s x) (foldR body xs')
  end.

(** Effectful code: a world goes in, a value or an exception comes out
    with the world it left behind. *)
Definition M (W A : Type) : Type := W -> result A * W.

Definition ret {W A} (a : A) : M W A := fun w => (Ok a, w).

Definition lift {W A} (r : result A) : M W A := fun w => (r, w).

Definition bind {W A B} (c : M W A) (k : A -> M W B) : M W B :=
  fun w =>
    match c w with
    | (Ok a, w') => k a w'
    | (Raise e, w') => (Raise e, w')
    end.

Fixpoint foldM {W A S} (body : S -> A -> M W S) (xs : list A) (s : S)
  : M W S :=
  match xs with
  | [] => ret s
  | x :: xs' => bind (body s x) (foldM body xs')
  end.

(** [enumerate(xs)] *)
Definition enumerate {A} (xs : list A) : list (nat * A) :=
  combine (seq 0 (List.length xs)) xs.

Fixpoint lookup {A} (k : string) (items : list (string * A)) : option A :=
  match items with
  | [] => None
  | (k', v) :: rest => if String.eqb k k' then Some v else lookup k rest
  end.

(** [v[key]] for a [str] key. *)
Definition getitem (v : pyval) (key : string) : result pyval :=
  match v with
  | PDict items =>
      match lookup key items with
      | Some x => Ok x
      | None => Raise KeyError
      end
  | _ => Raise TypeError
  end.

(** [v[0]] *)
Definition getitem0 (v : pyval) : result pyval :=
  match v with
  | PList (x :: _) => Ok x
  | PList [] => Raise IndexError
  | PStr (String c _) => Ok (PStr (String c EmptyString))
  | PStr EmptyString => Raise IndexError
  | PDict _ => Raise KeyError
  | _ => Raise TypeError
  end.

(** [v.get(key, default)]: only a [dict] has the method. *)
Definition get (v : pyval) (key : string) (default : pyval)
  : result pyval :=
  match v with
  | PDict items =>
      match lookup key items with
      | Some x => Ok x
      | None => Ok default
      end
  | _ => Raise AttributeError
  end.

(** The items [list.extend(v)] appends. *)
Definition iterate (v : pyval) : result (list pyval) :=
  match v with
  | PList items => Ok items
  | PStr s =>
      Ok (map (fun c => PStr (String c EmptyString)) (list_ascii_of_string s))
  | PDict items => Ok (map (fun kv => PStr (fst kv)) items)
  | _ => Raise TypeError
  end.

End Py.

Declare Scope py_scope.
Delimit Scope py_scope with py.
Notation "x <- c ;; k" := (Py.bind c (fun x => k))
  (at level 61, c at next level, right associativity) : py_scope.
Notation "x <~ r ;; k" := (Py.bindR r (fun x => k))
  (at level 61, r at next level, right associativity) : py_scope.

(** ** The libraries the extractor calls *)

Module Lib.
Import Py.

(** The request [requests.post] is given: URL, headers and JSON payload. *)
Record request : Type := {
  url : string;
  authorization : string;
  content_type : string;
  model : string;
  system_content : string;
  user_content : string;
  temperature : string
}.

(** What the program reads of a [requests.Response]; [json] is [None]
    when [response.json()] raises. *)
Record response : Type := {
  status_code : Z;
  text : string;
  json : option pyval
}.

(** The capabilities of one run. [json_loads] is the value [json.loads]
    decodes or the exception it raises; [str_other] is [str] on the
    values that are not themselves a [str]. *)
Record Env : Type := {
  world : Type;
  image : Type;
  pdf_page : Type;
  fitz_document : Type;
  fitz_page : Type;
  convert_from_bytes : list byte -> M world (list image);
  image_to_string : image -> M world string;
  PdfReader_pages : list byte -> M world (list pdf_page);
  page_extract_text : pdf_page -> M world string;
  fitz_open : list byte -> M world fitz_document;
  fitz_len : fitz_document -> nat;
  load_page : fitz_document -> nat -> M world fitz_page;
  get_text : fitz_page -> M world string;
  requests_post : request -> M world response;
  json_loads : string -> result pyval;
  str_other : pyval -> string
}.

End Lib.

(** ** TextExtractor: the three [extract_text_from_pdf*] methods *)

Module TextExtractor.
Import PyStr Py Lib.
Local Open Scope py_scope.

Definition nl : string := String "010" EmptyString.

(** [f"===== Page {n} =====\n"] *)
Definition page_marker (n : nat) : string :=
  "===== Page " ++ of_nat n ++ " =====" ++ nl.

Section WithEnv.
Variable E : Env.

Definition extract_text_from_pdf_fitz (pdf_content : list byte)
  : M (world E) string :=
  pdf_document <- fitz_open E pdf_content ;;
  foldM (fun text page_num =>
           page <- load_page E pdf_document page_num ;;
           let text := text ++ page_marker (page_num + 1) in
           page_text <- get_text E page ;;
           ret (text ++ page_text ++ nl ++ nl))
        (seq 0 (fitz_len E pdf_document)) EmptyString.

Definition extract_text_from_pdf (pdf_content : list byte)
  : M (world E) string :=
  images <- convert_from_bytes E pdf_content ;;
  foldM (fun text '(i, image) =>
           page_text <- image_to_string E image ;;
           let text := text ++ page_marker (i + 1) in
           ret (text ++ page_text ++ nl ++ nl))
        (enumerate images) EmptyString.

Definition extract_text_from_pdf1 (pdf_content : list byte)
  : M (world E) string :=
  pages <- PdfReader_pages E pdf_content ;;
  foldM (fun text page_num =>
           page <- lift (match nth_error pages page_num with
                         | Some page => Ok page
                         | None => Raise IndexError
                         end) ;;
           let text := text ++ page_marker (page_num + 1) in
           page_text <- page_extract_text E page ;;
           ret (text ++ page_text ++ nl ++ nl))
        (seq 0 (List.length pages)) EmptyString.

End WithEnv.
End TextExtractor.

(** ** ExtractionClient: [extract_invoice_data_from_chunk] *)

Module ExtractionClient.
Import PyStr Py Lib.
Local Open Scope py_scope.

Definition nl : string := String "010" EmptyString.
Definition dq : string := String (ascii_of_nat 34) EmptyString.

Definition lines (ls : list string) : string :=
  fold_right (fun l rest => l ++ nl ++ rest) EmptyString ls.

(** One [  "key": "value"] line of the format shown to the model. *)
Definition field_line (key value tail : string) : string :=
  "            " ++ dq ++ key ++ dq ++ ": " ++ dq ++ value ++ dq ++ tail.

(** The triple-quoted [prompt]. *)
Definition prompt : string :=
  nl ++ lines [
    "        Analyze this partial document which contains invoices for Oaks at Creekside.";
    "        Extract all invoice data and return it as a structured JSON array.";
    "";
    "        For each invoice, extract these fields:";
    "        - Vendor Name";
    "        - Invoice Number";
    "        - Invoice Date";
    "        - Due Date";
    "        - PO Number (if available)";
    "        - Total Amount";
    "        - Description of Services/Goods";
    "        - Bill To / Property Name";
    "        - Payment Terms";
    "        - Remit To / Payment Instructions";
    "";
    "        Return ONLY valid JSON in this format:";
    "        [";
    "          {";
    field_line "Vendor Name" "Vendor Name" ",";
    field_line "Invoice Number" "Number" ",";
    field_line "Invoice Date" "Date" ",";
    field_line "Due Date" "Date" ",";
    field_line "PO Number" "Number or empty" ",";
    field_line "Total Amount" "Amount" ",";
    field_line "Description" "Description" ",";
    field_line "Bill To" "Name" ",";
    field_line "Payment Terms" "Terms" ",";
    field_line "Payment Instructions" "Instructions" "";
    "          },";
    "          ...";
    "        ]" ]
  ++ "        ".

Definition api_url : string := "https://api.deepseek.com/v1/chat/completions".

Definition payload (api_key text_chunk : string) : request := {|
  url := api_url;
  authorization := "Bearer " ++ api_key;
  content_type := "application/json";
  model := "deepseek-chat";
  system_content :=
    "You are an expert at extracting structured data from invoices. Always return valid JSON.";
  user_content := prompt ++ nl ++ nl ++ "Document Text: " ++ text_chunk;
  temperature := "0.1"
|}.

(** [response_data['choices'][0]['message']['content']] *)
Definition message_content (response_data : pyval) : result pyval :=
  choices <~ getitem response_data "choices" ;;
  choice <~ getitem0 choices ;;
  message <~ getitem choice "message" ;;
  getitem message "content".

(** The classes [except (json.JSONDecodeError, ValueError)] catches. *)
Definition caught (e : exn) : bool :=
  match e with
  | JSONDecodeError | ValueError => true
  | _ => false
  end.

Section WithEnv.
Variable E : Env.

(** The [try] block: recover the JSON array from the completion text.
    Calling [find] on anything but a [str] raises [AttributeError], which
    the [except] clause does not catch; nor does it catch what
    [json.loads] raises outside [ValueError]. *)
Definition recover_array (content : pyval) : result pyval :=
  match content with
  | PStr content =>
      let json_start := find content "[" in
      let json_end := rfind content "]" + 1 in
      if (json_start =? -1) || (json_end =? 0) then Ok (PList [])
      else
        let json_str := slice content json_start json_end in
        match json_loads E json_str with
        | Ok invoice_data => Ok invoice_data
        | Raise e => if caught e then Ok (PList []) else Raise e
        end
  | _ => Raise AttributeError
  end.

(** What follows the request once a response is in hand. *)
Definition handle_response (response : response) : result pyval :=
  if status_code response =? 200 then
    response_data <~ match json response with
                     | Some v => Ok v
                     | None => Raise JSONDecodeError
                     end ;;
    content <~ message_content response_data ;;
    recover_array content
  else Ok (PList []).

Definition extract_invoice_data_from_chunk (api_key text_chunk : string)
  : M (world E) pyval :=
  response <- requests_post E (payload api_key text_chunk) ;;
  lift (handle_response response).

End WithEnv.
End ExtractionClient.

(** ** Aggregator: the deduplication at the end of [extract_invoice_data] *)

Module Aggregator.
Import PyStr Py Lib.
Local Open Scope py_scope.

Section WithEnv.
Variable E : Env.

(** [f"{v}"]: a [str] is itself, anything else goes through [str]. *)
Definition format (v : pyval) : string :=
  match v with
  | PStr s => s
  | _ => str_other E v
  end.

(** [f"{invoice.get('Vendor Name', '')}-{invoice.get('Invoice Number', '')}"] *)
Definition invoice_id (invoice : pyval) : result string :=
  vendor <~ get invoice "Vendor Name" (PStr EmptyString) ;;
  number <~ get invoice "Invoice Number" (PStr EmptyString) ;;
  Ok (format vendor ++ "-" ++ format number).

(** [key in unique_invoices] *)
Definition has_key (key : string) (unique_invoices : list (string * pyval))
  : bool :=
  existsb (fun kv => String.eqb key (fst kv)) unique_invoices.

(** One turn of [for invoice in all_invoices]; [unique_invoices] is the
    dict, in insertion order. *)
Definition dedup_step (unique_invoices : list (string * pyval))
    (invoice : pyval) : result (list (string * pyval)) :=
  invoice_id <~ invoice_id invoice ;;
  if negb (has_key invoice_id unique_invoices)
  then Ok (unique_invoices ++ [(invoice_id, invoice)])%list
  else Ok unique_invoices.

(** [list(unique_invoices.values())] after the loop. *)
Definition deduplicate (all_invoices : list pyval) : result (list pyval) :=
  unique_invoices <~ foldR dedup_step all_invoices [] ;;
  Ok (map snd unique_invoices).

End WithEnv.
End Aggregator.

(** ** Pipeline: [extract_invoice_data] *)

Module Pipeline.
Import PyStr Py Lib.
Local Open Scope py_scope.

Section WithEnv.
Variable E : Env.
Variable api_key : string.

(** The [for i, chunk in enumerate(chunks)] loop. *)
Definition process_chunks (chunks : list string) : M (world E) (list pyval) :=
  foldM (fun all_invoices '(i, chunk) =>
           chunk_invoices <-
             ExtractionClient.extract_invoice_data_from_chunk E api_key chunk ;;
           items <- lift (iterate chunk_invoices) ;;
           ret (all_invoices ++ items)%list)
        (enumerate chunks) [].

Definition extract_invoice_data (pdf_content : list byte)
  : M (world E) (list pyval) :=
  text <- TextExtractor.extract_text_from_pdf E pdf_content ;;
  let chunks :=
    Chunker.split_text_into_chunks text Chunker.default_max_tokens in
  all_invoices <- process_chunks chunks ;;
  lift (Aggregator.deduplicate E all_invoices).

End WithEnv.
End Pipeline.


(** ** Export: the column widths of [export_to_excel] *)

Module ExportToExcel.
Import PyStr Py.

(** One turn of [for cell in column]; the cell is given by what
    [str(cell.value)] does.  An exception is swallowed by the bare
    [except: pass]. *)
Definition cell_step (max_length : Z) (cell : result string) : Z :=
  match cell with
  | Ok s => if len s >? max_length then len s else max_length
  | Raise _ => max_length
  end.

Definition column_max_length (column : list (result string)) : Z :=
  fold_left cell_step column 0.

(** The width set for a column; [column[0]] raises on an empty one. *)
Definition adjusted_width (column : list (result string)) : result Z :=
  match column with
  | [] => Raise IndexError
  | _ :: _ => Ok (Z.min (column_max_length column + 2) 50)
  end.

(** [for column in worksheet.columns] *)
Definition column_widths (columns : list (list (result string)))
  : result (list Z) :=
  foldR (fun widths column =>
           bindR (adjusted_width column)
                 (fun width => Ok (widths ++ [width])%list))
        columns [].

End ExportToExcel.
(** ** Vocabulary of the specification *)

Module Spec.
Import PyStr Py Lib.

(** *** Chunks as runs of pages *)

(** Pages each preceded by the separator: what the [else] branch of the
    packing loop keeps appending. *)
Definition joined (pages : list string) : string :=
  fold_right (fun page rest => Chunker.page_sep ++ page ++ rest)
             EmptyString pages.

(** The text of the chunk that holds [pages]. A chunk is [fresh] when it
    grew from the empty initial [current_chunk]; otherwise it was opened
    by its first page. *)
Definition chunk_text (fresh : bool) (pages : list string) : string :=
  match fresh, pages with
  | true, _ => joined pages
  | false, [] => EmptyString
  | false, page :: rest => page ++ joined rest
  end.

Definition render_group (g : bool * list string) : string :=
  chunk_text (fst g) (snd g).

(** Some character of [s] is not whitespace. *)
Fixpoint has_ink (s : string) : bool :=
  match s with
  | EmptyString => false
  | String c s' => negb (isspace c) || has_ink s'
  end.

(** The first chunk is the fresh one; every later chunk was opened by a
    page, so it is not fresh and holds at least that page. *)
Definition well_grouped (groups : list (bool * list string)) : Prop :=
  match groups with
  | [] => True
  | g :: later =>
      fst g = true /\
      Forall (fun h => fst h = false /\ snd h <> []) later
  end.

(** A two-page document as the text extractor writes it, each page body
    longer than the 40 characters that [max_tokens = 10] allows. *)
Definition long_body_1 : string :=
  "Invoice Number: INV12345 issued 2025-09-01".
Definition long_body_2 : string :=
  "Vendor Name: Example Vendor of Creekside Ltd".
Definition two_long_pages : string :=
  TextExtractor.page_marker 1 ++ long_body_1
    ++ TextExtractor.nl ++ TextExtractor.nl
  ++ TextExtractor.page_marker 2 ++ long_body_2
    ++ TextExtractor.nl ++ TextExtractor.nl.

(** The text of [test_split_text_into_chunks]. *)
Definition test_text : string :=
  let nl := TextExtractor.nl in
  nl ++ "    ===== Page 1 =====" ++ nl ++ "    Invoice Number: INV12345" ++ nl
  ++ "    ===== Page 2 =====" ++ nl ++ "    Vendor Name: Example Vendor" ++ nl
  ++ "    ".

(** *** Records and their identity *)

(** An invoice record: the items of a decoded JSON object. *)
Definition record : Type := list (string * pyval).

Definition mem (key : string) (keys : list string) : bool :=
  existsb (String.eqb key) keys.

Section Identity.
Variable E : Env.

(** A field as the identity sees it: formatted, empty when missing. *)
Definition field (r : record) (key : string) : string :=
  match lookup key r with
  | Some v => Aggregator.format E v
  | None => EmptyString
  end.

(** RecordIdentity: vendor name, a dash, invoice number. *)
Definition identity (r : record) : string :=
  field r "Vendor Name" ++ "-" ++ field r "Invoice Number".

(** Deduplication in the words of the specification: go through the
    records in order, keep a record when its identity has not been seen,
    discard it otherwise. *)
Fixpoint first_seen (seen : list string) (rs : list record) : list record :=
  match rs with
  | [] => []
  | r :: rest =>
      if mem (identity r) seen then first_seen seen rest
      else r :: first_seen (identity r :: seen) rest
  end.

(** The item the loop of the source stores for a record. *)
Definition entry (r : record) : string * pyval := (identity r, PDict r).

End Identity.

(** A record with neither a vendor name nor an invoice number. *)
Definition missing_both (r : record) : bool :=
  match lookup "Vendor Name" r, lookup "Invoice Number" r with
  | None, None => true
  | _, _ => false
  end.

(** The colliding pair: different vendors, different numbers, one key. *)
Definition record_A1_2 : record :=
  [("Vendor Name", PStr "A-1"); ("Invoice Number", PStr "2")].
Definition record_A_12 : record :=
  [("Vendor Name", PStr "A"); ("Invoice Number", PStr "1-2")].

(** *** Scripted capabilities for the examples *)

(** [str] on the scalars; containers and floats do not occur in the
    examples. *)
Definition str_scalar (v : pyval) : string :=
  match v with
  | PNone => "None"
  | PBool true => "True"
  | PBool false => "False"
  | PInt n =>
      if n <? 0 then "-" ++ of_nat (Z.to_nat (- n)) else of_nat (Z.to_nat n)
  | PFloat repr => repr
  | _ => EmptyString
  end.

(** An environment played from a script: the document renders to the
    given pages, each a text or an exception; [post] answers a request;
    [loads] decodes a text or raises.  The world counts the library calls
    made. *)
Definition scripted_full (pages : list (result string))
    (post : request -> nat -> result response)
    (loads : string -> result pyval) : Env := {|
  world := nat;
  image := result string;
  pdf_page := result string;
  fitz_document := list (result string);
  fitz_page := result string;
  convert_from_bytes := fun _ w => (Ok pages, S w);
  image_to_string := fun image w => (image, S w);
  PdfReader_pages := fun _ w => (Ok pages, S w);
  page_extract_text := fun page w => (page, S w);
  fitz_open := fun _ w => (Ok pages, S w);
  fitz_len := fun doc => List.length doc;
  load_page := fun doc n w =>
    (match nth_error doc n with
     | Some page => Ok page
     | None => Raise (LibraryError "ValueError")
     end, S w);
  get_text := fun page w => (page, S w);
  requests_post := fun req w => (post req w, S w);
  json_loads := loads;
  str_other := str_scalar
|}.

(** The same, with an endpoint that does not look at the world. *)
Definition scripted_with (pages : list (result string))
    (post : request -> result response)
    (loads : string -> result pyval) : Env :=
  scripted_full pages (fun req _ => post req) loads.

(** The same, with a decoder that either decodes or rejects the text
    with [JSONDecodeError]. *)
Definition scripted (pages : list (result string))
    (post : request -> result response)
    (loads : string -> option pyval) : Env :=
  scripted_with pages post
    (fun s => match loads s with
              | Some v => Ok v
              | None => Raise JSONDecodeError
              end).

(** The record of the test suite, [SAMPLE_EXTRACTED_DATA[0]]. *)
Definition sample_record : record :=
  [ ("Vendor Name", PStr "Example Vendor");
    ("Invoice Number", PStr "INV12345");
    ("Invoice Date", PStr "2025-09-01");
    ("Due Date", PStr "2025-10-01");
    ("PO Number", PStr "PO67890");
    ("Total Amount", PStr "$1000.00");
    ("Description", PStr "Consulting Services");
    ("Bill To", PStr "Oaks at Creekside");
    ("Payment Terms", PStr "Net 30");
    ("Payment Instructions", PStr "Wire transfer to account XYZ") ].

(** An environment in which nothing is rendered or requested. *)
Definition idle : Env :=
  scripted [] (fun _ => Raise (LibraryError "ConnectionError"))
           (fun _ => None).

(** *** Responses of the completion endpoint *)

(** The body of a successful completion whose message is [content]. *)
Definition completion (content : pyval) : pyval :=
  PDict [("choices",
          PList [PDict [("message", PDict [("content", content)])]])].

Definition response_ok (content : string) : response := {|
  status_code := 200;
  text := EmptyString;
  json := Some (completion (PStr content))
|}.

(** The response of [test_extract_invoice_data_from_chunk_error]. *)
Definition response_400 : response := {|
  status_code := 400;
  text := "Bad Request";
  json := None
|}.





(** *** Documents and runs *)

(** The text of a document whose pages, numbered from [k + 1], render to
    [texts]: for each page its marker, its text and a blank line. *)
Fixpoint document_text_from (k : nat) (texts : list string) : string :=
  match texts with
  | [] => EmptyString
  | t :: rest =>
      TextExtractor.page_marker (k + 1) ++ t
        ++ TextExtractor.nl ++ TextExtractor.nl
        ++ document_text_from (S k) rest
  end.

Definition document_text (texts : list string) : string :=
  document_text_from 0 texts.

(** The page renders to [t] in some world. *)
Definition ocr_renders (E : Env) (image : Lib.image E) (t : string) : Prop :=
  exists w0 w1, image_to_string E image w0 = (Ok t, w1).

Definition pdf_renders (E : Env) (page : pdf_page E) (t : string) : Prop :=
  exists w0 w1, page_extract_text E page w0 = (Ok t, w1).

(** Rendering [items] one after the other, from the world [w], gives
    [texts] and leaves the world [w']. *)
Inductive rendered {W A : Type} (render : A -> M W string)
  : W -> list A -> list string -> W -> Prop :=
| rendered_nil (w : W) : rendered render w [] [] w
| rendered_cons (w w1 w' : W) (item : A) (t : string)
    (items : list A) (texts : list string) :
    render item w = (Ok t, w1) ->
    rendered render w1 items texts w' ->
    rendered render w (item :: items) (t :: texts) w'.

(** A computation whose outcome does not depend on the world it starts
    in. *)
Definition deterministic {W A : Type} (c : M W A) : Prop :=
  forall w1 w2, fst (c w1) = fst (c w2).

(** What one chunk adds to [all_invoices]: the items of the value the
    client returns for it. *)
Definition chunk_items (E : Env) (api_key chunk : string)
  : M (world E) (list pyval) :=
  bind (ExtractionClient.extract_invoice_data_from_chunk E api_key chunk)
       (fun chunk_invoices => lift (iterate chunk_invoices)).

(** A two-page scan whose first page the OCR engine fails on. *)
Definition first_page_unreadable : Env :=
  scripted [ Raise (LibraryError "TesseractError");
             Ok "Invoice Number: INV12345" ]
           (fun _ => Ok response_400) (fun _ => None).

(** A three-page scan whose second page the OCR engine fails on. *)
Definition second_page_unreadable : Env :=
  scripted [ Ok "Invoice Number: INV12345";
             Raise (LibraryError "TesseractError");
             Ok "Total Amount: $1000.00" ]
           (fun _ => Ok response_400) (fun _ => None).

(** A one-page scan and an endpoint that cannot be reached. *)
Definition unreachable_endpoint : Env :=
  scripted [ Ok "Invoice Number: INV12345" ]
           (fun _ => Raise (LibraryError "ConnectionError"))
           (fun _ => None).

(** The end-to-end scenario of the test suite: one page, and a completion
    that decodes to the sample record. *)
Definition sample_run : Env :=
  scripted [ Ok "Invoice Number: INV12345" ]
           (fun _ => Ok (response_ok "[sample]"))
           (fun s => if String.eqb s "[sample]"
                     then Some (PList [PDict sample_record]) else None).

(** A two-page scan, the second page blank, and an endpoint that answers
    400. *)
Definition blank_second_page : Env :=
  scripted [ Ok "Invoice Number: INV12345"; Ok EmptyString ]
           (fun _ => Ok response_400) (fun _ => None).

(** One turn of the chunk loop without its index: the chunk's items are
    appended to [all_invoices]. *)
Definition add_chunk (E : Env) (api_key : string)
    (all_invoices : list pyval) (chunk : string)
  : M (world E) (list pyval) :=
  bind (chunk_items E api_key chunk)
       (fun items => ret (all_invoices ++ items)%list).


(** A JSON object with two fields, and the record it decodes to. *)
Definition short_json : string :=
  let dq := ExtractionClient.dq in
  "{" ++ dq ++ "Vendor Name" ++ dq ++ ": " ++ dq ++ "Example Vendor" ++ dq
  ++ ", " ++ dq ++ "Invoice Number" ++ dq ++ ": " ++ dq ++ "INV12345" ++ dq
  ++ "}".

Definition short_record : record :=
  [ ("Vendor Name", PStr "Example Vendor");
    ("Invoice Number", PStr "INV12345") ].

(** A decoder that knows the array holding [short_json]. *)
Definition loads_short (s : string) : option pyval :=
  if String.eqb s ("[" ++ short_json ++ "]")
  then Some (PList [PDict short_record]) else None.

(** A page of [p] characters, all [x]. *)
Fixpoint xs (p : positive) : string :=
  match p with
  | xH => "x"
  | xO q => xs q ++ xs q
  | xI q => String "x" (xs q ++ xs q)
  end.

(** A page longer than the whole default budget of 400000 characters. *)
Definition long_page : string := xs 400001.

(** A two-page scan and an endpoint played by the order of its calls:
    the request made in world 3, the first of a run that starts in world
    0, is answered with the array holding [short_json]; every other
    request gets [later]. *)
Definition first_answered (t1 t2 : string) (later : result response)
  : Env :=
  scripted_full [ Ok t1; Ok t2 ]
    (fun _ w => if Nat.eqb w 3
                then Ok (response_ok ("[" ++ short_json ++ "]"))
                else later)
    (fun s => match loads_short s with
              | Some v => Ok v
              | None => Raise JSONDecodeError
              end).

(** The second chunk is refused with a 400. *)
Definition second_chunk_refused : Env :=
  first_answered "Invoice Number: INV12345" long_page (Ok response_400).


(** *** Further vocabulary *)

(** The block the chunker finds for a page that rendered to [t]: what
    the extractor writes between two markers. *)
Definition page_block (t : string) : string :=
  TextExtractor.nl ++ t ++ TextExtractor.nl ++ TextExtractor.nl.

(** Every character of [s] is a digit. *)
Fixpoint all_digits (s : string) : bool :=
  match s with
  | EmptyString => true
  | String c s' => isdigit c && all_digits s'
  end.

(** Page [i] of the document loads and renders to [t] in some worlds. *)
Definition fitz_renders (E : Env) (doc : fitz_document E) (i : nat)
    (t : string) : Prop :=
  exists page w0 w1 w2 w3,
    load_page E doc i w0 = (Ok page, w1) /\
    get_text E page w2 = (Ok t, w3).


(** An endpoint whose completion has no text: [content] is [null]. *)
Definition null_content : Env :=
  scripted [ Ok "Invoice Number: INV12345" ]
           (fun _ => Ok {| status_code := 200; text := EmptyString;
                           json := Some (completion PNone) |})
           (fun _ => None).

Definition is_str (v : pyval) : bool :=
  match v with
  | PStr _ => true
  | _ => false
  end.

Definition is_dict (v : pyval) : bool :=
  match v with
  | PDict _ => true
  | _ => false
  end.

(** A two-page scan on which the OCR engine finds nothing. *)
Definition all_blank : Env :=
  scripted [ Ok EmptyString; Ok "   " ]
           (fun _ => Raise (LibraryError "ConnectionError"))
           (fun _ => None).

End Spec.

(** ** Facts about strings *)

Module PyStrFacts.
Import PyStr.

Lemma append_nil_r (s : string) : s ++ EmptyString = s.
Proof. induction s as [|c s IH]; simpl; [reflexivity | now rewrite IH]. Qed.

Lemma append_assoc (a b c : string) : (a ++ b) ++ c = a ++ (b ++ c).
Proof. induction a as [|x a IH]; simpl; [reflexivity | now rewrite IH]. Qed.

Lemma length_append (a b : string) :
  String.length (a ++ b) = (String.length a + String.length b)%nat.
Proof. induction a as [|x a IH]; simpl; [reflexivity | now rewrite IH]. Qed.

Lemma len_append (a b : string) : len (a ++ b) = len a + len b.
Proof. unfold len. rewrite length_append. lia. Qed.

Lemma len_nonneg (s : string) : 0 <= len s.
Proof. unfold len. lia. Qed.

Lemma truthy_false (s : string) : truthy s = false <-> s = EmptyString.
Proof. destruct s; simpl; split; congruence. Qed.

Lemma truthy_len (s : string) : truthy s = true <-> 0 < len s.
Proof. destruct s; unfold len; simpl; split; intros; try congruence; lia. Qed.

Lemma truthy_append_l (a b : string) :
  truthy a = true -> truthy (a ++ b) = true.
Proof. destruct a; simpl; congruence. Qed.

Lemma truthy_append_r (a b : string) :
  truthy b = true -> truthy (a ++ b) = true.
Proof. destruct a; simpl; auto. Qed.

Lemma truthy_rev (s : string) : truthy (rev s) = truthy s.
Proof.
  destruct s as [|c s]; simpl; [reflexivity|].
  apply truthy_append_r. reflexivity.
Qed.

Lemma has_ink_append (a b : string) :
  Spec.has_ink (a ++ b) = Spec.has_ink a || Spec.has_ink b.
Proof.
  induction a as [|c a IH]; simpl; [reflexivity|].
  rewrite IH. now rewrite orb_assoc.
Qed.

Lemma has_ink_rev (s : string) : Spec.has_ink (rev s) = Spec.has_ink s.
Proof.
  induction s as [|c s IH]; simpl; [reflexivity|].
  rewrite has_ink_append, IH. simpl. rewrite orb_false_r. apply orb_comm.
Qed.

Lemma has_ink_lstrip (s : string) :
  Spec.has_ink (lstrip s) = Spec.has_ink s.
Proof.
  induction s as [|c s IH]; simpl; [reflexivity|].
  destruct (isspace c) eqn:Hc; simpl; [exact IH | now rewrite Hc].
Qed.

Lemma truthy_lstrip (s : string) : truthy (lstrip s) = Spec.has_ink s.
Proof.
  induction s as [|c s IH]; simpl; [reflexivity|].
  destruct (isspace c) eqn:Hc; simpl; [exact IH | reflexivity].
Qed.

(** [page.strip()] is truthy exactly when the page has a character that
    is not whitespace. *)
Lemma truthy_strip (s : string) : truthy (strip s) = Spec.has_ink s.
Proof.
  unfold strip, rstrip.
  rewrite truthy_rev, truthy_lstrip, has_ink_rev. apply has_ink_lstrip.
Qed.

Lemma has_ink_truthy (s : string) : Spec.has_ink s = true -> truthy s = true.
Proof. destruct s; simpl; congruence. Qed.

End PyStrFacts.

(** ** The chunker *)

Module ChunkerFacts.
Import PyStr Chunker Spec PyStrFacts.

Lemma joined_snoc (pages : list string) (page : string) :
  joined (pages ++ [page]) = joined pages ++ page_sep ++ page.
Proof.
  induction pages as [|p pages IH]; simpl.
  - now rewrite append_nil_r.
  - rewrite IH. f_equal. now rewrite !append_assoc.
Qed.

Lemma chunk_text_snoc (fresh : bool) (pages : list string) (page : string) :
  fresh = true \/ pages <> [] ->
  chunk_text fresh (pages ++ [page]) = chunk_text fresh pages ++ page_sep ++ page.
Proof.
  intros H. destruct fresh; simpl.
  - apply joined_snoc.
  - destruct pages as [|p pages]; [destruct H; congruence|].
    simpl. now rewrite joined_snoc, append_assoc.
Qed.

Lemma chunk_text_single (page : string) : chunk_text false [page] = page.
Proof. simpl. apply append_nil_r. Qed.

Lemma well_grouped_last gs g :
  well_grouped (gs ++ [g]) -> fst g = true \/ snd g <> [].
Proof.
  destruct gs as [|g0 gs]; simpl.
  - intros [H _]. now left.
  - intros [_ H]. apply Forall_app in H as [_ H].
    inversion H as [|? ? [_ Hne] _]; subst. now right.
Qed.

Lemma well_grouped_grow gs g page :
  well_grouped (gs ++ [g]) ->
  well_grouped (gs ++ [(fst g, (snd g ++ [page])%list)]).
Proof.
  destruct gs as [|g0 gs]; simpl.
  - intros [H _]. split; [exact H | constructor].
  - intros [H0 H]. split; [exact H0|].
    apply Forall_app in H as [Hgs Hg]. apply Forall_app. split; [exact Hgs|].
    inversion Hg as [|? ? [Hf _] _]; subst.
    constructor; [|constructor]. simpl. split; [exact Hf|].
    destruct (snd g); discriminate.
Qed.

Lemma well_grouped_open gs g page :
  well_grouped (gs ++ [g]) ->
  well_grouped ((gs ++ [g]) ++ [(false, [page])]).
Proof.
  destruct (gs ++ [g])%list as [|g0 l] eqn:E; simpl.
  - destruct gs; discriminate.
  - intros [H0 H]. split; [exact H0|].
    apply Forall_app. split; [exact H|].
    constructor; [|constructor]. simpl. split; [reflexivity | discriminate].
Qed.

(** The loop invariant: the closed chunks and the open one are the texts
    of page groups that, laid end to end, are the pages consumed. *)
Lemma pack_groups (max_chars : Z) (pages : list string) :
  forall gs g,
    well_grouped (gs ++ [g]) ->
    exists gs' g',
      fold_left (pack_step max_chars) pages
                (map render_group gs, render_group g)
        = (map render_group gs', render_group g') /\
      well_grouped (gs' ++ [g']) /\
      (List.concat (map snd gs') ++ snd g'
        = List.concat (map snd gs) ++ snd g ++ pages)%list.
Proof.
  induction pages as [|page pages IH]; intros gs g Hwg.
  - exists gs, g. simpl. rewrite app_nil_r. auto.
  - cbn [fold_left]. unfold pack_step at 2.
    destruct (len (render_group g) + len page >? max_chars).
    + destruct (IH (gs ++ [g])%list (false, [page])) as (gs' & g' & Hf & Hw & Hc).
      { now apply well_grouped_open. }
      exists gs', g'. split; [|split; [exact Hw|]].
      * rewrite map_app in Hf. cbn [map] in Hf.
        change (render_group (false, [page])) with (chunk_text false [page]) in Hf.
        rewrite chunk_text_single in Hf. exact Hf.
      * rewrite Hc. rewrite map_app, concat_app. simpl.
        now rewrite app_nil_r, <- !app_assoc.
    + destruct (IH gs (fst g, (snd g ++ [page])%list)) as (gs' & g' & Hf & Hw & Hc).
      { now apply well_grouped_grow. }
      exists gs', g'. split; [|split; [exact Hw|]].
      * change (render_group (fst g, (snd g ++ [page])%list))
          with (chunk_text (fst g) (snd g ++ [page])) in Hf.
        rewrite chunk_text_snoc in Hf by (now apply well_grouped_last with gs).
        exact Hf.
      * rewrite Hc. simpl. now rewrite <- !app_assoc.
Qed.

Lemma render_group_empty g :
  fst g = true \/ snd g <> [] ->
  Forall (fun page => truthy page = true) (snd g) ->
  render_group g = EmptyString -> snd g = [].
Proof.
  destruct g as [fresh pages]. unfold render_group. simpl.
  intros Hg Hall. destruct pages as [|p pages]; [reflexivity|].
  inversion Hall as [|? ? Hp _]; subst.
  destruct fresh; simpl.
  - discriminate.
  - destruct p; simpl in *; discriminate.
Qed.

Lemma nonblank_pages_ink (text : string) :
  nonblank_pages text = filter has_ink (re_split text).
Proof.
  unfold nonblank_pages. apply filter_ext. intros p. apply truthy_strip.
Qed.

Lemma nonblank_pages_truthy (text : string) :
  Forall (fun page => truthy page = true) (nonblank_pages text).
Proof.
  rewrite nonblank_pages_ink. apply Forall_forall. intros p Hp.
  apply filter_In in Hp as [_ Hp]. now apply has_ink_truthy.
Qed.

(** C1. Every page block of the text that has a non-whitespace character
    lies in exactly one chunk, whole, and the chunks follow the page
    order: the chunks are the texts of groups of consecutive pages, and
    the groups laid end to end are the sequence of those pages. *)
Theorem chunks_partition_pages (text : string) (max_tokens : Z) :
  exists groups : list (bool * list string),
    split_text_into_chunks text max_tokens = map render_group groups /\
    List.concat (map snd groups) = nonblank_pages text /\
    well_grouped groups /\
    nonblank_pages text = filter has_ink (re_split text).
Proof.
  unfold split_text_into_chunks, pack_loop.
  destruct (pack_groups (max_tokens * 4) (nonblank_pages text) [] (true, []))
    as (gs & g & Hf & Hw & Hc).
  { simpl. split; [reflexivity | constructor]. }
  simpl in Hf, Hc. unfold render_group at 1 in Hf. simpl in Hf.
  rewrite Hf. unfold flush.
  assert (Hall : Forall (fun page => truthy page = true) (snd g)).
  { pose proof (nonblank_pages_truthy text) as H. rewrite <- Hc in H.
    now apply Forall_app in H as [_ H]. }
  destruct (truthy (render_group g)) eqn:Ht.
  - exists (gs ++ [g])%list. rewrite map_app, map_app, concat_app. simpl.
    rewrite app_nil_r. auto using nonblank_pages_ink.
  - apply truthy_false in Ht.
    apply render_group_empty in Ht; [|now apply well_grouped_last with gs|exact Hall].
    exists gs. rewrite Ht, app_nil_r in Hc.
    split; [reflexivity|]. split; [exact Hc|]. split; [|apply nonblank_pages_ink].
    destruct gs as [|g0 gs]; [exact I|].
    simpl in Hw. destruct Hw as [H0 Hw]. split; [exact H0|].
    apply Forall_app in Hw as [Hw Hg].
    inversion Hg as [|? ? [_ Hne] _]; subst. contradiction.
Qed.

Lemma pack_step_fits max_chars chunks current page :
  len current + len page <= max_chars ->
  pack_step max_chars (chunks, current) page
    = (chunks, current ++ page_sep ++ page).
Proof.
  intros Hle. unfold pack_step.
  destruct (Z.gtb_spec (len current + len page) max_chars); [lia | reflexivity].
Qed.

Lemma pack_step_overflows max_chars chunks current page :
  len current + len page > max_chars ->
  pack_step max_chars (chunks, current) page
    = ((chunks ++ [current])%list, page).
Proof.
  intros Hgt. unfold pack_step.
  destruct (Z.gtb_spec (len current + len page) max_chars); [reflexivity | lia].
Qed.

(** What the rest of the loop does to a chunk that is open and not empty:
    the closed chunks stay, the open one can only grow at its end. *)
Lemma flush_open (max_chars : Z) (rest : list string) :
  forall chunks current,
    truthy current = true ->
    Forall (fun page => truthy page = true) rest ->
    exists suffix tail,
      flush (fold_left (pack_step max_chars) rest (chunks, current))
        = (chunks ++ [(current ++ suffix)%string] ++ tail)%list.
Proof.
  induction rest as [|page rest IH]; intros chunks current Hc Hall.
  - exists EmptyString, []. simpl. rewrite Hc. now rewrite append_nil_r.
  - inversion Hall as [|? ? Hp Hrest]; subst.
    cbn [fold_left]. unfold pack_step at 2.
    destruct (len current + len page >? max_chars).
    + destruct (IH (chunks ++ [current])%list page Hp Hrest) as (s & t & H).
      exists EmptyString, ([(page ++ s)%string] ++ t)%list.
      rewrite H, append_nil_r. now rewrite <- app_assoc.
    + destruct (IH chunks (current ++ page_sep ++ page)) as (s & t & H);
        [now apply truthy_append_l | exact Hrest |].
      exists (page_sep ++ page ++ s), t.
      rewrite H. now rewrite !append_assoc.
Qed.

(** A chunk already over the budget takes no further page. *)
Lemma flush_oversized (max_chars : Z) (rest : list string) :
  forall chunks current,
    truthy current = true ->
    len current > max_chars ->
    Forall (fun page => truthy page = true) rest ->
    exists tail,
      flush (fold_left (pack_step max_chars) rest (chunks, current))
        = (chunks ++ [current] ++ tail)%list.
Proof.
  intros chunks current Hc Hlen Hall.
  destruct rest as [|page rest].
  - exists []. simpl. now rewrite Hc.
  - inversion Hall as [|? ? Hp Hrest]; subst.
    cbn [fold_left]. unfold pack_step at 2.
    pose proof (len_nonneg page).
    destruct (Z.gtb_spec (len current + len page) max_chars); [|lia].
    destruct (flush_open max_chars rest (chunks ++ [current])%list page Hp Hrest)
      as (s & t & Hs).
    exists ([(page ++ s)%string] ++ t)%list. rewrite Hs. now rewrite <- app_assoc.
Qed.

(** C2. With [(chunks, current)] the state of the loop when it reaches
    [page]: a page that fits ([len current + len page <= max_chars], with
    [max_chars = max_tokens * 4]) is appended to the current chunk; a
    page that does not fit closes the current chunk and opens the next
    chunk, which begins with that page; a page longer than [max_chars] is
    a chunk by itself.  The function is total: no budget makes it fail. *)
Theorem greedy_packing (text : string) (max_tokens : Z)
    (done rest : list string) (page : string) :
  nonblank_pages text = (done ++ page :: rest)%list ->
  let max_chars := max_tokens * 4 in
  let chunks := fst (pack_loop max_chars done) in
  let current := snd (pack_loop max_chars done) in
  let out := split_text_into_chunks text max_tokens in
  (len current + len page <= max_chars ->
     exists suffix tail,
       out = (chunks ++ [(current ++ page_sep ++ page ++ suffix)%string] ++ tail)%list) /\
  (len current + len page > max_chars ->
     exists suffix tail,
       out = (chunks ++ [current] ++ [(page ++ suffix)%string] ++ tail)%list) /\
  (len page > max_chars ->
     exists tail, out = (chunks ++ [current] ++ [page] ++ tail)%list).
Proof.
  intros Hpages max_chars chunks current out.
  pose proof (nonblank_pages_truthy text) as Hall. rewrite Hpages in Hall.
  apply Forall_app in Hall as [_ Hall].
  inversion Hall as [|? ? Hp Hrest]; subst.
  assert (Hout : out = flush (fold_left (pack_step max_chars) rest
                    (pack_step max_chars (chunks, current) page))).
  { unfold out, split_text_into_chunks. fold max_chars. rewrite Hpages.
    unfold pack_loop. rewrite fold_left_app. simpl fold_left.
    unfold chunks, current, pack_loop.
    now destruct (fold_left (pack_step max_chars) done ([], EmptyString)). }
  split; [|split].
  - intros Hle. rewrite Hout, pack_step_fits by exact Hle.
    destruct (flush_open max_chars rest chunks (current ++ page_sep ++ page))
      as (s & t & Hs); [|exact Hrest|].
    { apply truthy_append_r, truthy_append_r, Hp. }
    exists s, t. rewrite Hs. now rewrite !append_assoc.
  - intros Hgt. rewrite Hout, pack_step_overflows by exact Hgt.
    destruct (flush_open max_chars rest (chunks ++ [current])%list page Hp Hrest)
      as (s & t & Hs).
    exists s, t. rewrite Hs. now rewrite <- app_assoc.
  - intros Hgt. pose proof (len_nonneg current).
    rewrite Hout, pack_step_overflows by lia.
    destruct (flush_oversized max_chars rest (chunks ++ [current])%list page Hp)
      as (t & Hs); [lia | exact Hrest |].
    exists t. rewrite Hs. now rewrite <- app_assoc.
Qed.

(** The pattern at work: one or more digits are required, and the pieces
    around the matches are returned, empty ones included. *)
Example re_split_markers :
  re_split "a===== Page 12 =====b===== Page  =====c===== Page 3 =====" =
  ["a"; "b===== Page  =====c"; EmptyString].
Proof. vm_compute. reflexivity. Qed.

(** The markers the text extractor writes are the ones the chunker
    splits on. *)
Example re_split_document :
  re_split (document_text ["one"; EmptyString; "three"]) =
  [ EmptyString;
    TextExtractor.nl ++ "one" ++ TextExtractor.nl ++ TextExtractor.nl;
    TextExtractor.nl ++ TextExtractor.nl ++ TextExtractor.nl;
    TextExtractor.nl ++ "three" ++ TextExtractor.nl ++ TextExtractor.nl ].
Proof. vm_compute. reflexivity. Qed.

(** The source's own [test_split_text_into_chunks]: two chunks. *)
Example test_split_text_into_chunks :
  split_text_into_chunks test_text 10 =
  [ page_sep ++ TextExtractor.nl ++ "    Invoice Number: INV12345"
      ++ TextExtractor.nl ++ "    ";
    TextExtractor.nl ++ "    Vendor Name: Example Vendor"
      ++ TextExtractor.nl ++ "    " ].
Proof. vm_compute. reflexivity. Qed.

Lemma greedy_packing_witness :
  exists suffix tail,
    split_text_into_chunks test_text 10
    = ([] ++ [(page_sep ++ TextExtractor.nl ++ "    Invoice Number: INV12345"
                ++ TextExtractor.nl ++ "    ")%string]
          ++ [((TextExtractor.nl ++ "    Vendor Name: Example Vendor"
                ++ TextExtractor.nl ++ "    ") ++ suffix)%string] ++ tail)%list.
Proof.
  apply (greedy_packing test_text 10
           [TextExtractor.nl ++ "    Invoice Number: INV12345"
              ++ TextExtractor.nl ++ "    "]
           []
           (TextExtractor.nl ++ "    Vendor Name: Example Vendor"
              ++ TextExtractor.nl ++ "    ")).
  - vm_compute. reflexivity.
  - vm_compute. reflexivity.
Defined.

(** Whenever the first of two pages is itself over the budget, the closed
    chunk that precedes it is the empty initial [current_chunk]. *)
Lemma two_oversized_pages (text p1 p2 : string) (max_tokens : Z) :
  nonblank_pages text = [p1; p2] ->
  len p1 > max_tokens * 4 ->
  split_text_into_chunks text max_tokens = [EmptyString; p1; p2].
Proof.
  intros Hpages H1.
  pose proof (nonblank_pages_truthy text) as Hall. rewrite Hpages in Hall.
  inversion Hall as [|? ? _ Hall']; subst.
  inversion Hall' as [|? ? Hp2 _]; subst.
  pose proof (len_nonneg p1). pose proof (len_nonneg p2).
  unfold split_text_into_chunks, pack_loop. rewrite Hpages. cbn [fold_left].
  rewrite pack_step_overflows by (change (len EmptyString) with 0; lia).
  rewrite pack_step_overflows by lia.
  unfold flush. now rewrite Hp2.
Qed.

(** C3. At [max_tokens = 10], the two-page document [two_long_pages],
    whose pages are each longer than 40 characters, comes back as three
    chunks: an empty one, then one per page. *)
Theorem two_long_pages_give_three_chunks :
  split_text_into_chunks two_long_pages 10 =
    [ EmptyString;
      TextExtractor.nl ++ long_body_1 ++ TextExtractor.nl ++ TextExtractor.nl;
      TextExtractor.nl ++ long_body_2 ++ TextExtractor.nl ++ TextExtractor.nl ] /\
  len long_body_1 > 40 /\ len long_body_2 > 40 /\
  List.length (split_text_into_chunks two_long_pages 10) = 3%nat.
Proof. vm_compute. repeat split; reflexivity. Qed.

End ChunkerFacts.

(** ** The aggregator *)

Module AggregatorFacts.
Import PyStr Py Lib Aggregator Spec PyStrFacts.
Local Open Scope list_scope.

Lemma mem_In key keys : mem key keys = true <-> In key keys.
Proof.
  unfold mem. rewrite existsb_exists. split.
  - intros (k & Hin & Hk). apply String.eqb_eq in Hk. now subst.
  - intros Hin. exists key. split; [exact Hin | apply String.eqb_refl].
Qed.

Lemma mem_not_In key keys : mem key keys = false <-> ~ In key keys.
Proof.
  rewrite <- mem_In. destruct (mem key keys); split; congruence.
Qed.

Lemma mem_app key a b : mem key (a ++ b) = mem key a || mem key b.
Proof. apply existsb_app. Qed.

Section WithEnv.
Variable E : Env.

Local Abbreviation identity := (Spec.identity E).
Local Abbreviation first_seen := (Spec.first_seen E).

(** The seen identities matter only as a set. *)
Lemma first_seen_ext (rs : list record) :
  forall s1 s2, (forall k, mem k s1 = mem k s2) ->
  first_seen s1 rs = first_seen s2 rs.
Proof.
  induction rs as [|r rs IH]; intros s1 s2 Hs; simpl; [reflexivity|].
  rewrite <- (Hs (identity r)).
  destruct (mem (identity r) s1); [now apply IH|].
  f_equal. apply IH. intros k. simpl. now rewrite Hs.
Qed.

Lemma first_seen_app (a b : list record) :
  forall seen,
    first_seen seen (a ++ b)
    = first_seen seen a ++ first_seen (map identity a ++ seen) b.
Proof.
  induction a as [|r a IH]; intros seen; simpl; [reflexivity|].
  destruct (mem (identity r) seen) eqn:Hm.
  - rewrite IH. f_equal. apply first_seen_ext. intros k. simpl.
    destruct (String.eqb_spec k (identity r)) as [->|]; [|reflexivity].
    simpl. rewrite mem_app, Hm. now rewrite orb_true_r.
  - rewrite IH. simpl. f_equal. f_equal. apply first_seen_ext. intros k.
    rewrite !mem_app. simpl. rewrite !mem_app.
    destruct (k =? identity r)%string; simpl;
      [now rewrite orb_true_r | reflexivity].
Qed.

Lemma first_seen_fresh (rs : list record) :
  forall seen r, In r (first_seen seen rs) -> ~ In (identity r) seen.
Proof.
  induction rs as [|x rs IH]; intros seen r; simpl; [tauto|].
  destruct (mem (identity x) seen) eqn:Hm; [apply IH|].
  intros [->|Hin]; [now apply mem_not_In|].
  apply IH in Hin. intros Hs. apply Hin. now right.
Qed.

Lemma first_seen_NoDup (rs : list record) :
  forall seen, NoDup (map identity (first_seen seen rs)).
Proof.
  induction rs as [|x rs IH]; intros seen; simpl; [constructor|].
  destruct (mem (identity x) seen); [apply IH|].
  simpl. constructor; [|apply IH].
  intros Hin. apply in_map_iff in Hin as (r & Hr & Hin).
  apply first_seen_fresh in Hin. apply Hin. now left.
Qed.

(** The records kept are the ones whose identity did not occur before. *)
Lemma first_seen_In (rs : list record) :
  forall seen r,
    In r (first_seen seen rs) <->
    exists pre post,
      rs = pre ++ r :: post /\
      ~ In (identity r) (seen ++ map identity pre).
Proof.
  induction rs as [|x rs IH]; intros seen r; simpl.
  - split; [tauto|]. intros (pre & post & H & _). now destruct pre.
  - destruct (mem (identity x) seen) eqn:Hm.
    + rewrite IH. split.
      * intros (pre & post & -> & Hn). exists (x :: pre), post.
        split; [reflexivity|]. intros Hin. apply Hn.
        apply in_app_iff in Hin as [Hin|[Hin|Hin]];
          apply in_app_iff; auto.
        left. rewrite <- Hin. now apply mem_In.
      * intros (pre & post & Heq & Hn). destruct pre as [|y pre].
        -- simpl in Heq. injection Heq as -> ->. exfalso. apply Hn.
           rewrite app_nil_r. now apply mem_In.
        -- simpl in Heq. injection Heq as -> ->. exists pre, post.
           split; [reflexivity|]. intros Hin. apply Hn.
           apply in_app_iff in Hin as [Hin|Hin]; apply in_app_iff;
             [now left | right; now right].
    + simpl. rewrite IH. split.
      * intros [->|(pre & post & -> & Hn)].
        -- exists [], rs. split; [reflexivity|]. simpl. rewrite app_nil_r.
           now apply mem_not_In.
        -- exists (x :: pre), post. split; [reflexivity|].
           intros Hin. apply Hn. simpl.
           apply in_app_iff in Hin as [Hin|[Hin|Hin]]; auto.
           ++ right. apply in_app_iff. now left.
           ++ right. apply in_app_iff. now right.
      * intros (pre & post & Heq & Hn). destruct pre as [|y pre].
        -- simpl in Heq. injection Heq as -> ->. now left.
        -- simpl in Heq. injection Heq as -> ->. right. exists pre, post.
           split; [reflexivity|]. intros Hin. apply Hn. simpl in Hin.
           destruct Hin as [Hin|Hin]; apply in_app_iff.
           ++ right. now left.
           ++ apply in_app_iff in Hin as [Hin|Hin]; [now left|].
              right. now right.
Qed.

(** Records with distinct identities, none seen before, are all kept. *)
Lemma first_seen_id (rs : list record) :
  forall seen,
    NoDup (map identity rs) ->
    (forall r, In r rs -> ~ In (identity r) seen) ->
    first_seen seen rs = rs.
Proof.
  induction rs as [|x rs IH]; intros seen Hnd Hs; simpl; [reflexivity|].
  inversion Hnd as [|? ? Hx Hnd']; subst.
  assert (Hm : mem (identity x) seen = false).
  { apply mem_not_In, Hs. now left. }
  rewrite Hm. f_equal. apply IH; [exact Hnd'|].
  intros r Hr [Heq|Hin].
  - apply Hx. rewrite Heq. now apply in_map.
  - apply (Hs r); [now right | exact Hin].
Qed.

Lemma first_seen_idempotent (rs : list record) :
  first_seen [] (first_seen [] rs) = first_seen [] rs.
Proof.
  apply first_seen_id; [apply first_seen_NoDup|]. intros r _ [].
Qed.

(** A later record whose identity already occurred changes nothing. *)
Lemma first_seen_drop_later (pre mid post : list record) (r1 r2 : record) :
  identity r1 = identity r2 ->
  first_seen [] (pre ++ r1 :: mid ++ r2 :: post)
  = first_seen [] (pre ++ (r1 :: mid) ++ post).
Proof.
  intros Hid.
  change (pre ++ r1 :: mid ++ r2 :: post)%list
    with (pre ++ (r1 :: mid) ++ (r2 :: post))%list.
  rewrite !app_assoc. rewrite (first_seen_app _ (r2 :: post)).
  rewrite (first_seen_app _ post). f_equal. simpl.
  replace (mem (identity r2) _) with true; [reflexivity|].
  symmetry. apply mem_In. rewrite app_nil_r, map_app. apply in_app_iff. right.
  simpl. now left.
Qed.

(** *** The loop of the source against [first_seen] *)

Lemma invoice_id_dict (r : record) :
  invoice_id E (PDict r) = Ok (identity r).
Proof.
  unfold invoice_id, Spec.identity, field, get. simpl.
  destruct (lookup "Vendor Name" r), (lookup "Invoice Number" r); reflexivity.
Qed.

Lemma has_key_mem key unique :
  has_key key unique = mem key (map fst unique).
Proof.
  unfold has_key, mem. induction unique as [|kv u IH]; simpl;
    [reflexivity | now rewrite IH].
Qed.

Lemma dedup_loop (rs : list record) :
  forall unique,
    foldR (dedup_step E) (map PDict rs) unique
    = Ok (unique ++ map (entry E) (first_seen (map fst unique) rs)).
Proof.
  induction rs as [|r rs IH]; intros unique; simpl.
  - now rewrite app_nil_r.
  - unfold dedup_step at 1. rewrite invoice_id_dict. simpl.
    rewrite has_key_mem.
    destruct (mem (identity r) (map fst unique)) eqn:Hm; simpl.
    + apply IH.
    + rewrite IH. rewrite <- app_assoc. simpl. do 4 f_equal.
      apply first_seen_ext. intros k. rewrite map_app, mem_app. simpl.
      rewrite orb_false_r. apply orb_comm.
Qed.

Lemma deduplicate_records (rs : list record) :
  deduplicate E (map PDict rs) = Ok (map PDict (first_seen [] rs)).
Proof.
  unfold deduplicate. rewrite dedup_loop. simpl.
  rewrite map_map. reflexivity.
Qed.

(** C5. Deduplication keeps, unchanged and in the order of first
    appearance, exactly the records whose identity did not occur earlier:
    a later record with the vendor name and invoice number of an earlier
    one is discarded, nothing is merged, and two chunks that each yield
    the same record leave that one record. *)
Theorem first_write_wins (rs : list record) :
  let out := first_seen [] rs in
  deduplicate E (map PDict rs) = Ok (map PDict out) /\
  NoDup (map identity out) /\
  (forall r, In r out <->
     exists pre post,
       rs = pre ++ r :: post /\ ~ In (identity r) (map identity pre)) /\
  (forall r, first_seen [] (rs ++ [r])
             = out ++ (if mem (identity r) (map identity rs) then [] else [r])) /\
  (forall pre r1 mid r2 post,
     rs = pre ++ r1 :: mid ++ r2 :: post ->
     lookup "Vendor Name" r1 = lookup "Vendor Name" r2 ->
     lookup "Invoice Number" r1 = lookup "Invoice Number" r2 ->
     deduplicate E (map PDict rs)
     = deduplicate E (map PDict (pre ++ (r1 :: mid) ++ post))) /\
  (forall r, deduplicate E (map PDict ([r] ++ [r])) = Ok [PDict r]).
Proof.
  intros out. split; [apply deduplicate_records|].
  split; [apply first_seen_NoDup|].
  split; [intros r; apply (first_seen_In rs [] r)|].
  split; [|split].
  - intros r. rewrite first_seen_app. simpl. rewrite app_nil_r.
    now destruct (mem (identity r) (map identity rs)).
  - intros pre r1 mid r2 post -> Hv Hn.
    rewrite !deduplicate_records. do 2 f_equal.
    apply first_seen_drop_later.
    unfold Spec.identity, field. now rewrite Hv, Hn.
  - intros r. rewrite deduplicate_records. simpl.
    now rewrite String.eqb_refl.
Qed.

(** C8. Deduplicating the output of a deduplication gives that output
    back: same records, same order. *)
Theorem deduplicate_idempotent (rs : list record) :
  exists out,
    deduplicate E (map PDict rs) = Ok out /\
    deduplicate E out = Ok out.
Proof.
  exists (map PDict (first_seen [] rs)).
  split; [apply deduplicate_records|].
  rewrite deduplicate_records. now rewrite first_seen_idempotent.
Qed.

Lemma at_most_one_per_key (P : record -> bool) (key : string)
    (rs : list record) :
  NoDup (map identity rs) ->
  (forall r, P r = true -> identity r = key) ->
  (List.length (filter P rs) <= 1)%nat.
Proof.
  intros Hnd HP. induction rs as [|x rs IH]; simpl; [lia|].
  inversion Hnd as [|? ? Hx Hnd']; subst.
  destruct (P x) eqn:Px; [|now apply IH].
  simpl. destruct (filter P rs) as [|y ys] eqn:Hf; [simpl; lia|].
  exfalso. apply Hx.
  assert (Hy : In y (filter P rs)) by (rewrite Hf; now left).
  apply filter_In in Hy as [Hy Py].
  rewrite (HP x Px), <- (HP y Py). now apply in_map.
Qed.

Lemma missing_both_identity (r : record) :
  missing_both r = true -> identity r = "-"%string.
Proof.
  unfold missing_both, Spec.identity, field.
  destruct (lookup "Vendor Name" r); [discriminate|].
  destruct (lookup "Invoice Number" r); [discriminate | reflexivity].
Qed.

(** C10. The key of a record is the text [vendor-number], each part
    formatted and empty when missing.  Records are duplicates as soon as
    these texts coincide, whatever the two fields are: vendor [A-1] with
    number [2] and vendor [A] with number [1-2] share [A-1-2].  A record
    with neither field has the key [-], and at most one such record is
    left after deduplication. *)
Theorem identity_is_formatted_text :
  (forall r,
     invoice_id E (PDict r)
     = Ok (field E r "Vendor Name" ++ "-" ++ field E r "Invoice Number")%string) /\
  (forall r key, lookup key r = None -> field E r key = EmptyString) /\
  (forall r key s, lookup key r = Some (PStr s) -> field E r key = s) /\
  (forall pre r1 mid r2 post,
     identity r1 = identity r2 ->
     deduplicate E (map PDict (pre ++ r1 :: mid ++ r2 :: post))
     = deduplicate E (map PDict (pre ++ (r1 :: mid) ++ post))) /\
  (identity record_A1_2 = "A-1-2"%string /\
   identity record_A_12 = "A-1-2"%string /\
   deduplicate E [PDict record_A1_2; PDict record_A_12]
   = Ok [PDict record_A1_2]) /\
  (forall r, missing_both r = true -> invoice_id E (PDict r) = Ok "-"%string) /\
  (forall rs,
     exists out,
       deduplicate E (map PDict rs) = Ok (map PDict out) /\
       (List.length (filter missing_both out) <= 1)%nat).
Proof.
  split; [intros r; apply invoice_id_dict|].
  split; [intros r key H; unfold field; now rewrite H|].
  split; [intros r key s H; unfold field; now rewrite H|].
  split; [|split; [|split]].
  - intros pre r1 mid r2 post Hid. rewrite !deduplicate_records.
    do 2 f_equal. now apply first_seen_drop_later.
  - split; [reflexivity|]. split; [reflexivity|].
    apply (deduplicate_records [record_A1_2; record_A_12]).
  - intros r Hr. rewrite invoice_id_dict. f_equal.
    now apply missing_both_identity.
  - intros rs. exists (first_seen [] rs).
    split; [apply deduplicate_records|].
    apply at_most_one_per_key with (key := "-"%string);
      [apply first_seen_NoDup | apply missing_both_identity].
Qed.

End WithEnv.

Lemma first_write_wins_witness :
  deduplicate idle (map PDict [sample_record; record_A_12; sample_record])
  = deduplicate idle (map PDict ([] ++ [sample_record; record_A_12] ++ [])).
Proof.
  destruct (first_write_wins idle [sample_record; record_A_12; sample_record])
    as (_ & _ & _ & _ & H & _).
  apply (H [] sample_record [record_A_12] sample_record []); reflexivity.
Defined.

Lemma identity_is_formatted_text_witness :
  deduplicate idle (map PDict ([] ++ record_A1_2 :: [] ++ record_A_12 :: []))
  = deduplicate idle (map PDict ([] ++ [record_A1_2] ++ []))
  /\ invoice_id idle (PDict [("Total Amount", PStr "$5")]) = Ok "-"%string.
Proof.
  destruct (identity_is_formatted_text idle) as (_ & _ & _ & Hdup & _ & Hdash & _).
  split.
  - apply Hdup. reflexivity.
  - apply Hdash. reflexivity.
Defined.

(** [test_extract_invoice_data_duplicate_handling]: the sample twice. *)
Example duplicate_handling :
  deduplicate idle (map PDict [sample_record; sample_record])
  = Ok [PDict sample_record].
Proof. reflexivity. Qed.

End AggregatorFacts.

(** ** The extraction client *)

Module ClientFacts.
Import PyStr Py Lib ExtractionClient Spec PyStrFacts.







Section WithEnv.
Variable E : Env.






Lemma from_chunk_response (api_key chunk : string) (w w' : world E)
    (resp : response) :
  requests_post E (payload api_key chunk) w = (Ok resp, w') ->
  extract_invoice_data_from_chunk E api_key chunk w
  = (handle_response E resp, w').
Proof.
  intros H. unfold extract_invoice_data_from_chunk, bind. now rewrite H.
Qed.


End WithEnv.



End ClientFacts.

(** ** The text extractor *)

Module TextFacts.
Import PyStr Py Lib TextExtractor Spec PyStrFacts.
Local Open Scope py_scope.

Section WithEnv.
Variable E : Env.

Lemma ocr_loop (images : list (image E)) :
  forall k text w,
    (forall image, In image images ->
       forall w0, exists t w1, image_to_string E image w0 = (Ok t, w1)) ->
    exists texts w',
      Forall2 (ocr_renders E) images texts /\
      foldM (fun text '(i, image) =>
               page_text <- image_to_string E image ;;
               let text := text ++ page_marker (i + 1) in
               ret (text ++ page_text ++ nl ++ nl))
            (combine (seq k (List.length images)) images) text w
      = (Ok (text ++ document_text_from k texts), w').
Proof.
  induction images as [|image images IH]; intros k text w Hall.
  - exists [], w. split; [constructor|]. simpl. now rewrite append_nil_r.
  - destruct (Hall image (or_introl eq_refl) w) as (t & w1 & Ht).
    destruct (IH (S k) ((text ++ page_marker (k + 1)) ++ t ++ nl ++ nl) w1)
      as (texts & w' & HF & Hloop).
    { intros i Hi. apply Hall. now right. }
    exists (t :: texts), w'. split.
    + constructor; [now exists w, w1 | exact HF].
    + cbn [List.length seq combine foldM]. unfold bind at 1. unfold bind at 1.
      rewrite Ht. unfold ret at 1. cbv beta iota zeta in Hloop |- *.
      rewrite Hloop.
      cbn [document_text_from]. now rewrite !append_assoc.
Qed.

Lemma pdf_loop (pages items : list (pdf_page E)) :
  forall pre k text w,
    pages = (pre ++ items)%list ->
    k = List.length pre ->
    (forall page, In page items ->
       forall w0, exists t w1, page_extract_text E page w0 = (Ok t, w1)) ->
    exists texts w',
      Forall2 (pdf_renders E) items texts /\
      foldM (fun text page_num =>
               page <- lift (match nth_error pages page_num with
                             | Some page => Ok page
                             | None => Raise IndexError
                             end) ;;
               let text := text ++ page_marker (page_num + 1) in
               page_text <- page_extract_text E page ;;
               ret (text ++ page_text ++ nl ++ nl))
            (seq k (List.length items)) text w
      = (Ok (text ++ document_text_from k texts), w').
Proof.
  induction items as [|page items IH]; intros pre k text w Hpages Hk Hall.
  - exists [], w. split; [constructor|]. simpl. now rewrite append_nil_r.
  - destruct (Hall page (or_introl eq_refl) w) as (t & w1 & Ht).
    destruct (IH (pre ++ [page])%list (S k)
                 ((text ++ page_marker (k + 1)) ++ t ++ nl ++ nl) w1)
      as (texts & w' & HF & Hloop).
    { rewrite Hpages. now rewrite <- app_assoc. }
    { rewrite length_app, Hk. simpl. lia. }
    { intros p Hp. apply Hall. now right. }
    exists (t :: texts), w'. split.
    + constructor; [now exists w, w1 | exact HF].
    + assert (Hnth : nth_error pages k = Some page).
      { rewrite Hpages, Hk, nth_error_app2, Nat.sub_diag by lia. reflexivity. }
      cbn [List.length seq foldM]. unfold bind at 1. unfold bind at 1.
      unfold lift at 1. rewrite Hnth. unfold bind at 1.
      rewrite Ht. unfold ret at 1. cbv beta iota zeta in Hloop |- *.
      rewrite Hloop.
      cbn [document_text_from]. now rewrite !append_assoc.
Qed.

(** The loops along the worlds the run goes through. *)
Lemma ocr_loop_rendered (images : list (Lib.image E)) (texts : list string)
    (w w' : world E) :
  rendered (image_to_string E) w images texts w' ->
  forall k text,
    foldM (fun text '(i, image) =>
             page_text <- image_to_string E image ;;
             let text := text ++ page_marker (i + 1) in
             ret (text ++ page_text ++ nl ++ nl))
          (combine (seq k (List.length images)) images) text w
    = (Ok (text ++ document_text_from k texts), w').
Proof.
  induction 1 as [w|w w1 w' item t items texts Ht _ IH]; intros k text.
  - simpl. now rewrite append_nil_r.
  - cbn [List.length seq combine foldM].
    unfold bind at 1. unfold bind at 1. rewrite Ht. unfold ret at 1.
    cbv beta iota zeta. rewrite IH.
    cbn [document_text_from]. now rewrite !append_assoc.
Qed.

Lemma pdf_loop_rendered (pages items : list (pdf_page E))
    (texts : list string) (w w' : world E) :
  rendered (page_extract_text E) w items texts w' ->
  forall pre k text,
    pages = (pre ++ items)%list ->
    k = List.length pre ->
    foldM (fun text page_num =>
             page <- lift (match nth_error pages page_num with
                           | Some page => Ok page
                           | None => Raise IndexError
                           end) ;;
             let text := text ++ page_marker (page_num + 1) in
             page_text <- page_extract_text E page ;;
             ret (text ++ page_text ++ nl ++ nl))
          (seq k (List.length items)) text w
    = (Ok (text ++ document_text_from k texts), w').
Proof.
  induction 1 as [w|w w1 w' item t items texts Ht _ IH];
    intros pre k text Hpages Hk.
  - simpl. now rewrite append_nil_r.
  - assert (Hnth : nth_error pages k = Some item).
    { rewrite Hpages, Hk, nth_error_app2, Nat.sub_diag by lia. reflexivity. }
    cbn [List.length seq foldM].
    unfold bind at 1. unfold bind at 1. unfold lift at 1. rewrite Hnth.
    unfold bind at 1. rewrite Ht. unfold ret at 1.
    cbv beta iota zeta. rewrite (IH (pre ++ [item])%list).
    + cbn [document_text_from]. now rewrite !append_assoc.
    + rewrite Hpages. now rewrite <- app_assoc.
    + rewrite length_app, Hk. simpl. lia.
Qed.

(** The OCR loop stops at the first page that raises. *)
Lemma ocr_loop_raises (image : Lib.image E) (after : list (Lib.image E))
    (e : exn) (w2 w3 : world E) (before : list (Lib.image E))
    (texts : list string) (w : world E) :
  rendered (image_to_string E) w before texts w2 ->
  image_to_string E image w2 = (Raise e, w3) ->
  forall k text,
    foldM (fun text '(i, image) =>
             page_text <- image_to_string E image ;;
             let text := text ++ page_marker (i + 1) in
             ret (text ++ page_text ++ nl ++ nl))
          (combine (seq k (List.length (before ++ image :: after)%list))
                   (before ++ image :: after)%list) text w
    = (Raise e, w3).
Proof.
  intros Hbefore Hraise.
  induction Hbefore as [w|w w1 w' item t items texts Ht _ IH]; intros k text.
  - cbn [app List.length seq combine foldM].
    unfold bind at 1. unfold bind at 1. now rewrite Hraise.
  - cbn [app List.length seq combine foldM].
    unfold bind at 1. unfold bind at 1. rewrite Ht. unfold ret at 1.
    apply (IH Hraise).
Qed.

(** So does the PyPDF2 loop. *)
Lemma pdf_loop_raises (pages : list (pdf_page E)) (page : pdf_page E)
    (after : list (pdf_page E)) (e : exn) (w2 w3 : world E)
    (before : list (pdf_page E)) (texts : list string) (w : world E) :
  rendered (page_extract_text E) w before texts w2 ->
  page_extract_text E page w2 = (Raise e, w3) ->
  forall pre k text,
    pages = (pre ++ before ++ page :: after)%list ->
    k = List.length pre ->
    foldM (fun text page_num =>
             page <- lift (match nth_error pages page_num with
                           | Some page => Ok page
                           | None => Raise IndexError
                           end) ;;
             let text := text ++ page_marker (page_num + 1) in
             page_text <- page_extract_text E page ;;
             ret (text ++ page_text ++ nl ++ nl))
          (seq k (List.length (before ++ page :: after)%list)) text w
    = (Raise e, w3).
Proof.
  intros Hbefore Hraise.
  induction Hbefore as [w|w w1 w' item t items texts Ht _ IH];
    intros pre k text Hpages Hk.
  - assert (Hnth : nth_error pages k = Some page).
    { rewrite Hpages, Hk, nth_error_app2, Nat.sub_diag by lia. reflexivity. }
    cbn [app List.length seq foldM].
    unfold bind at 1. unfold bind at 1. unfold lift at 1. rewrite Hnth.
    unfold bind at 1. now rewrite Hraise.
  - assert (Hnth : nth_error pages k = Some item).
    { rewrite Hpages, Hk, nth_error_app2, Nat.sub_diag by lia. reflexivity. }
    cbn [app List.length seq foldM].
    unfold bind at 1. unfold bind at 1. unfold lift at 1. rewrite Hnth.
    unfold bind at 1. rewrite Ht. unfold ret at 1.
    apply (IH Hraise (pre ++ [item])%list).
    + rewrite Hpages. now rewrite <- app_assoc.
    + rewrite length_app, Hk. simpl. lia.
Qed.

(** C7, as the code has it.  When no page raises while it is rendered,
    the extractors return the document text: for every page, in page
    order, its marker, the text the page rendered to and a blank line.
    A page that renders to the empty string still has its marker.  When
    a page raises after the pages before it have rendered, the extractor
    ends with that exception: no text comes back and the pages after it
    are not rendered. *)
Theorem pages_render_in_order (pdf_content : list byte) (w : world E) :
  (forall images w1,
     convert_from_bytes E pdf_content w = (Ok images, w1) ->
     (forall image, In image images ->
        forall w0, exists t w', image_to_string E image w0 = (Ok t, w')) ->
     exists texts w',
       Forall2 (ocr_renders E) images texts /\
       extract_text_from_pdf E pdf_content w = (Ok (document_text texts), w')) /\
  (forall pages w1,
     PdfReader_pages E pdf_content w = (Ok pages, w1) ->
     (forall page, In page pages ->
        forall w0, exists t w', page_extract_text E page w0 = (Ok t, w')) ->
     exists texts w',
       Forall2 (pdf_renders E) pages texts /\
       extract_text_from_pdf1 E pdf_content w = (Ok (document_text texts), w')) /\
  (forall k rest,
     document_text_from k (EmptyString :: rest)
     = page_marker (k + 1) ++ nl ++ nl ++ document_text_from (S k) rest) /\
  (forall before image after texts w1 w2 e w3,
     convert_from_bytes E pdf_content w
       = (Ok (before ++ image :: after)%list, w1) ->
     rendered (image_to_string E) w1 before texts w2 ->
     image_to_string E image w2 = (Raise e, w3) ->
     extract_text_from_pdf E pdf_content w = (Raise e, w3)) /\
  (forall before page after texts w1 w2 e w3,
     PdfReader_pages E pdf_content w
       = (Ok (before ++ page :: after)%list, w1) ->
     rendered (page_extract_text E) w1 before texts w2 ->
     page_extract_text E page w2 = (Raise e, w3) ->
     extract_text_from_pdf1 E pdf_content w = (Raise e, w3)) /\
  (forall images texts w1 w',
     convert_from_bytes E pdf_content w = (Ok images, w1) ->
     rendered (image_to_string E) w1 images texts w' ->
     extract_text_from_pdf E pdf_content w = (Ok (document_text texts), w')) /\
  (forall pages texts w1 w',
     PdfReader_pages E pdf_content w = (Ok pages, w1) ->
     rendered (page_extract_text E) w1 pages texts w' ->
     extract_text_from_pdf1 E pdf_content w = (Ok (document_text texts), w')).
Proof.
  split; [|split; [|split; [|split; [|split; [|split]]]]].
  - intros images w1 Hconv Hall.
    destruct (ocr_loop images 0%nat EmptyString w1 Hall) as (texts & w' & HF & Hloop).
    exists texts, w'. split; [exact HF|].
    unfold extract_text_from_pdf, bind at 1. rewrite Hconv.
    unfold enumerate. exact Hloop.
  - intros pages w1 Hread Hall.
    destruct (pdf_loop pages pages [] 0%nat EmptyString w1 eq_refl eq_refl Hall)
      as (texts & w' & HF & Hloop).
    exists texts, w'. split; [exact HF|].
    unfold extract_text_from_pdf1, bind at 1. rewrite Hread. exact Hloop.
  - reflexivity.
  - intros before image after texts w1 w2 e w3 Hconv Hbefore Hraise.
    unfold extract_text_from_pdf, bind at 1. rewrite Hconv. unfold enumerate.
    now apply (ocr_loop_raises image after e w2 w3 before texts w1).
  - intros before page after texts w1 w2 e w3 Hread Hbefore Hraise.
    unfold extract_text_from_pdf1, bind at 1. rewrite Hread.
    now apply (pdf_loop_raises (before ++ page :: after)%list page after e
                 w2 w3 before texts w1 Hbefore Hraise []).
  - intros images texts w1 w' Hconv Hall.
    unfold extract_text_from_pdf, bind at 1. rewrite Hconv. unfold enumerate.
    apply (ocr_loop_rendered images texts w1 w' Hall 0%nat EmptyString).
  - intros pages texts w1 w' Hread Hall.
    unfold extract_text_from_pdf1, bind at 1. rewrite Hread.
    now apply (pdf_loop_rendered pages pages texts w1 w' Hall [] 0%nat
                 EmptyString).
Qed.

End WithEnv.

Lemma pages_render_in_order_witness :
  (exists texts w',
     Forall2 (ocr_renders blank_second_page)
             [Ok "Invoice Number: INV12345"; Ok EmptyString] texts /\
     extract_text_from_pdf blank_second_page [] 0%nat
     = (Ok (document_text texts), w')) /\
  extract_text_from_pdf second_page_unreadable [] 0%nat
    = (Raise (LibraryError "TesseractError"), 3%nat) /\
  extract_text_from_pdf1 second_page_unreadable [] 0%nat
    = (Raise (LibraryError "TesseractError"), 3%nat).
Proof.
  split; [|split].
  - destruct (pages_render_in_order blank_second_page [] 0%nat) as (Hocr & _).
    apply (Hocr [Ok "Invoice Number: INV12345"; Ok EmptyString] 1%nat eq_refl).
    intros image [<-|[<-|[]]] w0; eexists; eexists; reflexivity.
  - destruct (pages_render_in_order second_page_unreadable [] 0%nat)
      as (_ & _ & _ & Hocr & _).
    apply (Hocr [Ok "Invoice Number: INV12345"]
                (Raise (LibraryError "TesseractError"))
                [Ok "Total Amount: $1000.00"]
                ["Invoice Number: INV12345"] 1%nat 2%nat).
    + reflexivity.
    + apply (rendered_cons _ 1%nat 2%nat 2%nat); [reflexivity | constructor].
    + reflexivity.
  - destruct (pages_render_in_order second_page_unreadable [] 0%nat)
      as (_ & _ & _ & _ & Hpdf & _).
    apply (Hpdf [Ok "Invoice Number: INV12345"]
                (Raise (LibraryError "TesseractError"))
                [Ok "Total Amount: $1000.00"]
                ["Invoice Number: INV12345"] 1%nat 2%nat).
    + reflexivity.
    + apply (rendered_cons _ 1%nat 2%nat 2%nat); [reflexivity | constructor].
    + reflexivity.
Defined.

(** What the scripted run of [blank_second_page] returns. *)
Example blank_page_keeps_marker :
  fst (extract_text_from_pdf blank_second_page [] 0%nat)
  = Ok ("===== Page 1 =====" ++ nl ++ "Invoice Number: INV12345" ++ nl ++ nl
        ++ "===== Page 2 =====" ++ nl ++ nl ++ nl).
Proof. vm_compute. reflexivity. Qed.

(** C7, as it is claimed, fails: the OCR engine raising on page 1 of
    [first_page_unreadable] ends the extraction with that exception; no
    text comes back, page 2 is never rendered. *)
Lemma unreadable_page_aborts :
  extract_text_from_pdf first_page_unreadable [] 0%nat
    = (Raise (LibraryError "TesseractError"), 2%nat) /\
  extract_text_from_pdf1 first_page_unreadable [] 0%nat
    = (Raise (LibraryError "TesseractError"), 2%nat) /\
  extract_text_from_pdf_fitz first_page_unreadable [] 0%nat
    = (Raise (LibraryError "TesseractError"), 3%nat) /\
  fst (extract_text_from_pdf first_page_unreadable [] 0%nat)
    <> Ok (document_text [EmptyString; "Invoice Number: INV12345"]).
Proof. vm_compute. repeat split; try reflexivity. discriminate. Qed.

End TextFacts.

(** ** The pipeline *)

Module MonadFacts.
Import Py Spec.

Lemma bind_ok_inv {W A B} (c : M W A) (k : A -> M W B) w b w' :
  bind c k w = (Ok b, w') ->
  exists a w1, c w = (Ok a, w1) /\ k a w1 = (Ok b, w').
Proof.
  unfold bind. destruct (c w) as [[a|e] w1]; [|discriminate].
  intros H. now exists a, w1.
Qed.

Lemma bind_ok {W A B} (c : M W A) (k : A -> M W B) w a w1 :
  c w = (Ok a, w1) -> bind c k w = k a w1.
Proof. intros H. unfold bind. now rewrite H. Qed.

Lemma bind_raise {W A B} (c : M W A) (k : A -> M W B) w e w1 :
  c w = (Raise e, w1) -> bind c k w = (Raise e, w1).
Proof. intros H. unfold bind. now rewrite H. Qed.

Lemma foldM_ext {W A S} (f g : S -> A -> M W S) :
  (forall s x w, f s x w = g s x w) ->
  forall xs s w, foldM f xs s w = foldM g xs s w.
Proof.
  intros Hfg xs. induction xs as [|x xs IH]; intros s w; [reflexivity|].
  cbn [foldM]. unfold bind. rewrite Hfg.
  destruct (g s x w) as [[s'|e] w1]; [apply IH | reflexivity].
Qed.

(** A loop over [enumerate] whose body does not look at the index. *)
Lemma foldM_enumerate {W A S} (body : S -> A -> M W S) (xs : list A) :
  forall k s w,
    foldM (fun s '(i, x) => body s x)
          (combine (seq k (List.length xs)) xs) s w
    = foldM body xs s w.
Proof.
  induction xs as [|x xs IH]; intros k s w; [reflexivity|].
  cbn [List.length seq combine foldM]. unfold bind.
  destruct (body s x w) as [[s'|e] w1]; [apply IH | reflexivity].
Qed.

Lemma foldM_app {W A S} (body : S -> A -> M W S) (xs ys : list A) :
  forall s w,
    foldM body (xs ++ ys) s w = bind (foldM body xs s) (foldM body ys) w.
Proof.
  induction xs as [|x xs IH]; intros s w; [reflexivity|].
  cbn [app foldM]. unfold bind.
  destruct (body s x w) as [[s'|e] w1]; [|reflexivity].
  rewrite IH. reflexivity.
Qed.

Lemma deterministic_ret {W A} (a : A) : deterministic (@ret W A a).
Proof. intros w1 w2. reflexivity. Qed.

Lemma deterministic_lift {W A} (r : result A) : deterministic (@lift W A r).
Proof. intros w1 w2. reflexivity. Qed.

Lemma deterministic_bind {W A B} (c : M W A) (k : A -> M W B) :
  deterministic c -> (forall a, deterministic (k a)) ->
  deterministic (bind c k).
Proof.
  intros Hc Hk w1 w2. unfold bind. specialize (Hc w1 w2).
  destruct (c w1) as [r1 u1], (c w2) as [r2 u2]. simpl in Hc. subst r2.
  destruct r1 as [a|e]; [apply Hk | reflexivity].
Qed.

Lemma deterministic_foldM {W A S} (body : S -> A -> M W S) (xs : list A) :
  (forall s x, deterministic (body s x)) ->
  forall s, deterministic (foldM body xs s).
Proof.
  intros Hb. induction xs as [|x xs IH]; intros s.
  - apply deterministic_ret.
  - cbn [foldM]. apply deterministic_bind; [apply Hb | exact IH].
Qed.

End MonadFacts.

Module PipelineFacts.
Import PyStr Py Lib Spec PyStrFacts MonadFacts AggregatorFacts ClientFacts.
Local Open Scope list_scope.

Lemma concat_dicts (ls : list (list pyval)) :
  forall rs,
    List.concat ls = map PDict rs ->
    exists rss, ls = map (map PDict) rss /\ rs = List.concat rss.
Proof.
  induction ls as [|l ls IH]; intros rs H; simpl in H.
  - exists []. split; [reflexivity|]. symmetry in H.
    now apply map_eq_nil in H.
  - symmetry in H. apply map_eq_app in H as (r1 & r2 & -> & H1 & H2).
    symmetry in H2. destruct (IH r2 H2) as (rss & -> & ->).
    exists (r1 :: rss). simpl. now rewrite H1.
Qed.

Lemma Forall2_map_dicts {A} (R : A -> list pyval -> Prop) (xs : list A)
    (rss : list (list record)) :
  Forall2 R xs (map (map PDict) rss) ->
  Forall2 (fun x recs => R x (map PDict recs)) xs rss.
Proof.
  revert xs. induction rss as [|recs rss IH]; intros xs H; simpl in H.
  - inversion H. constructor.
  - inversion H as [|x ? xs' ? Hx Hrest]; subst. constructor; auto.
Qed.


Section WithEnv.
Variable E : Env.
Variable api_key : string.

Local Abbreviation chunks_of text :=
  (Chunker.split_text_into_chunks text Chunker.default_max_tokens).

(** The chunk loop is a plain left-to-right fold of [add_chunk]. *)
Lemma process_chunks_plain (chunks : list string) (w : world E) :
  Pipeline.process_chunks E api_key chunks w
  = foldM (add_chunk E api_key) chunks [] w.
Proof.
  unfold Pipeline.process_chunks, enumerate.
  etransitivity.
  - exact (foldM_enumerate
             (fun all_invoices chunk =>
                bind (ExtractionClient.extract_invoice_data_from_chunk
                        E api_key chunk)
                     (fun chunk_invoices =>
                        bind (lift (iterate chunk_invoices))
                             (fun items => ret (all_invoices ++ items))))
             chunks 0%nat [] w).
  - apply foldM_ext. intros s x w0. unfold add_chunk, chunk_items, bind.
    destruct (ExtractionClient.extract_invoice_data_from_chunk E api_key x w0)
      as [[ci|e] w1]; [|reflexivity].
    unfold lift. destruct (iterate ci); reflexivity.
Qed.

Lemma add_chunks_ok_inv (chunks : list string) :
  forall acc w all w',
    foldM (add_chunk E api_key) chunks acc w = (Ok all, w') ->
    exists per_chunk,
      all = acc ++ List.concat per_chunk /\
      Forall2 (fun chunk items =>
                 exists w0 w1, chunk_items E api_key chunk w0 = (Ok items, w1))
              chunks per_chunk.
Proof.
  induction chunks as [|chunk chunks IH]; intros acc w all w' H.
  - cbn in H. injection H as <- <-. exists []. simpl.
    rewrite app_nil_r. split; [reflexivity | constructor].
  - cbn [foldM] in H. apply bind_ok_inv in H as (s' & w1 & Hadd & Hrest).
    apply bind_ok_inv in Hadd as (items & w2 & Hitems & Hret).
    cbn in Hret. injection Hret as <- <-.
    destruct (IH _ _ _ _ Hrest) as (per & -> & HF).
    exists (items :: per). simpl. rewrite app_assoc.
    split; [reflexivity|]. constructor; [now exists w, w2 | exact HF].
Qed.



(** Deduplication returns only when every item is a [dict]. *)
Lemma dedup_ok_dicts (xs : list pyval) :
  forall u u',
    foldR (Aggregator.dedup_step E) xs u = Ok u' ->
    exists rs, xs = map PDict rs.
Proof.
  induction xs as [|x xs IH]; intros u u' H.
  - now exists [].
  - cbn [foldR] in H.
    destruct (Aggregator.dedup_step E u x) as [u1|e] eqn:Hstep;
      [|discriminate].
    cbn [bindR] in H. destruct (IH _ _ H) as (rs & ->).
    destruct x; try discriminate. now exists (items :: rs).
Qed.

Lemma deduplicate_ok_inv (xs out : list pyval) :
  Aggregator.deduplicate E xs = Ok out ->
  exists rs, xs = map PDict rs /\ out = map PDict (first_seen E [] rs).
Proof.
  intros H. assert (Hd : exists rs, xs = map PDict rs).
  { unfold Aggregator.deduplicate in H.
    destruct (foldR (Aggregator.dedup_step E) xs []) eqn:Hf; [|discriminate].
    now apply dedup_ok_dicts in Hf. }
  destruct Hd as (rs & ->). exists rs. split; [reflexivity|].
  rewrite deduplicate_records in H. now injection H as <-.
Qed.

(** Every record has a kept record with its identity. *)
Lemma first_seen_covers (rs : list record) :
  forall seen r,
    In r rs ->
    In (identity E r) seen \/
    exists r', In r' (first_seen E seen rs) /\ identity E r' = identity E r.
Proof.
  induction rs as [|x rs IH]; intros seen r Hin; [destruct Hin|].
  simpl. destruct (mem (identity E x) seen) eqn:Hm.
  - destruct Hin as [->|Hin]; [left; now apply mem_In | now apply IH].
  - destruct Hin as [->|Hin].
    + right. exists r. split; [now left | reflexivity].
    + destruct (IH (identity E x :: seen) r Hin) as [[Heq|Hs]|(r' & Hr' & Hid)].
      * right. exists x. split; [now left | exact Heq].
      * now left.
      * right. exists r'. split; [now right | exact Hid].
Qed.


Lemma deterministic_chunk_items (chunk : string) :
  (forall req, deterministic (requests_post E req)) ->
  deterministic (chunk_items E api_key chunk).
Proof.
  intros Hpost. unfold chunk_items. apply deterministic_bind.
  - unfold ExtractionClient.extract_invoice_data_from_chunk.
    apply deterministic_bind; [apply Hpost|].
    intros resp. apply deterministic_lift.
  - intros v. apply deterministic_lift.
Qed.

Lemma deterministic_extract_text (pdf_content : list byte) :
  (forall b, deterministic (convert_from_bytes E b)) ->
  (forall image, deterministic (image_to_string E image)) ->
  deterministic (TextExtractor.extract_text_from_pdf E pdf_content).
Proof.
  intros Hconv Hocr. unfold TextExtractor.extract_text_from_pdf.
  apply deterministic_bind; [apply Hconv|]. intros images.
  apply deterministic_foldM. intros text [i image].
  apply deterministic_bind; [apply Hocr|]. intros t. apply deterministic_ret.
Qed.

Lemma deterministic_process_chunks (chunks : list string) :
  (forall req, deterministic (requests_post E req)) ->
  deterministic (Pipeline.process_chunks E api_key chunks).
Proof.
  intros Hpost w1 w2. rewrite !process_chunks_plain.
  apply deterministic_foldM. intros s x. unfold add_chunk.
  apply deterministic_bind; [now apply deterministic_chunk_items|].
  intros items. apply deterministic_ret.
Qed.


(** C9. With rendering and completion capabilities whose answers do not
    depend on the world, two runs on the same bytes have the same
    outcome, from whatever worlds they start; and the records a run
    returns are the first-seen ones of the per-chunk records laid end to
    end in chunk order, each chunk's records in the order the completion
    gave them. *)
Theorem run_deterministic (pdf_content : list byte) :
  (forall b, deterministic (convert_from_bytes E b)) ->
  (forall image, deterministic (image_to_string E image)) ->
  (forall req, deterministic (requests_post E req)) ->
  (forall w1 w2,
     fst (Pipeline.extract_invoice_data E api_key pdf_content w1)
     = fst (Pipeline.extract_invoice_data E api_key pdf_content w2)) /\
  (forall w out,
     fst (Pipeline.extract_invoice_data E api_key pdf_content w) = Ok out ->
     exists text per_chunk,
       (forall w0,
          fst (TextExtractor.extract_text_from_pdf E pdf_content w0) = Ok text) /\
       Forall2 (fun chunk recs =>
                  forall w0,
                    fst (chunk_items E api_key chunk w0) = Ok (map PDict recs))
               (chunks_of text) per_chunk /\
       out = map PDict (first_seen E [] (List.concat per_chunk))).
Proof.
  intros Hconv Hocr Hpost. split.
  - unfold Pipeline.extract_invoice_data.
    apply deterministic_bind; [now apply deterministic_extract_text|].
    intros text. apply deterministic_bind;
      [now apply deterministic_process_chunks|].
    intros all. apply deterministic_lift.
  - intros w out Hrun.
    destruct (Pipeline.extract_invoice_data E api_key pdf_content w)
      as [r w'] eqn:Hr.
    simpl in Hrun. subst r. unfold Pipeline.extract_invoice_data in Hr.
    apply bind_ok_inv in Hr as (text & w1 & Htext & Hr).
    apply bind_ok_inv in Hr as (all & w2 & Hchunks & Hdedup).
    unfold lift in Hdedup. injection Hdedup as Hdedup _.
    apply deduplicate_ok_inv in Hdedup as (rs & -> & ->).
    rewrite process_chunks_plain in Hchunks.
    apply add_chunks_ok_inv in Hchunks as (per & Hall & HF).
    simpl in Hall. symmetry in Hall.
    apply concat_dicts in Hall as (rss & -> & ->).
    exists text, rss. split; [|split; [|reflexivity]].
    + intros w0.
      rewrite (deterministic_extract_text pdf_content Hconv Hocr w0 w).
      now rewrite Htext.
    + apply Forall2_map_dicts in HF.
      eapply Forall2_impl; [|exact HF].
      intros chunk recs (wa & wb & Hitems) w0.
      rewrite (deterministic_chunk_items chunk Hpost w0 wa).
      now rewrite Hitems.
Qed.

End WithEnv.

Lemma run_deterministic_witness :
  fst (Pipeline.extract_invoice_data sample_run "mock_api_key" [] 0%nat)
  = fst (Pipeline.extract_invoice_data sample_run "mock_api_key" [] 7%nat).
Proof.
  apply (run_deterministic sample_run "mock_api_key" []);
    intros x w1 w2; reflexivity.
Defined.

(** [test_extract_invoice_data], end to end: one page, one record. *)
Example test_extract_invoice_data :
  fst (Pipeline.extract_invoice_data sample_run "mock_api_key" [] 0%nat)
  = Ok [PDict sample_record].
Proof. vm_compute. reflexivity. Qed.


End PipelineFacts.

(** ** More on the chunker *)

Module ChunkerMore.
Import PyStr Chunker Spec PyStrFacts ChunkerFacts.

Lemma flush_state (max_chars : Z) (pages : list string) :
  forall (Q : string -> Prop) chunks current,
    (forall current page,
       In page pages -> Q current ->
       len current + len page <= max_chars ->
       Q (current ++ page_sep ++ page)) ->
    (forall page, In page pages -> Q page) ->
    Forall Q chunks -> Q current ->
    Forall Q (flush (fold_left (pack_step max_chars) pages (chunks, current))).
Proof.
  induction pages as [|page pages IH]; intros Q chunks current Hfit Hopen Hc Hq.
  - simpl. destruct (truthy current); [|exact Hc].
    apply Forall_app. split; [exact Hc | now constructor].
  - cbn [fold_left].
    destruct (Z.gtb_spec (len current + len page) max_chars) as [Hgt|Hle].
    + rewrite pack_step_overflows by lia.
      apply IH.
      * intros c p Hp. apply Hfit. now right.
      * intros p Hp. apply Hopen. now right.
      * apply Forall_app. split; [exact Hc | now constructor].
      * apply Hopen. now left.
    + rewrite pack_step_fits by lia.
      apply IH.
      * intros c p Hp. apply Hfit. now right.
      * intros p Hp. apply Hopen. now right.
      * exact Hc.
      * apply Hfit; [now left | exact Hq | exact Hle].
Qed.

(** X1.  The budget is exceeded by at most the separator, except by a page
    that is a chunk by itself: every chunk is empty, or one whole page,
    or at most [max_tokens * 4 + 18] characters long. *)
Theorem chunk_size_bound (text : string) (max_tokens : Z) :
  Forall (fun chunk =>
            chunk = EmptyString \/
            In chunk (nonblank_pages text) \/
            len chunk <= max_tokens * 4 + 18)
         (split_text_into_chunks text max_tokens).
Proof.
  unfold split_text_into_chunks, pack_loop.
  apply flush_state.
  - intros current page Hp _ Hle. right. right.
    rewrite !len_append. change (len page_sep) with 18. lia.
  - intros page Hp. right. now left.
  - constructor.
  - now left.
Qed.

(** Once the open chunk is not empty, no empty chunk is produced. *)
Lemma flush_truthy (max_chars : Z) (pages : list string) :
  forall chunks current,
    Forall (fun page => truthy page = true) pages ->
    Forall (fun c => truthy c = true) chunks ->
    truthy current = true ->
    Forall (fun c => truthy c = true)
           (flush (fold_left (pack_step max_chars) pages (chunks, current))).
Proof.
  intros chunks current Hall Hc Hq.
  apply flush_state with (Q := fun c => truthy c = true); auto.
  - intros c p _ Hcur _. now apply truthy_append_l.
  - intros p Hp. rewrite Forall_forall in Hall. now apply Hall.
Qed.

(** X2.  An empty chunk is returned exactly when the first page that is not
    blank is longer than the budget. *)
Theorem empty_chunk_iff (text : string) (max_tokens : Z) :
  In EmptyString (split_text_into_chunks text max_tokens) <->
  exists page rest,
    nonblank_pages text = page :: rest /\ len page > max_tokens * 4.
Proof.
  pose proof (nonblank_pages_truthy text) as Hall.
  unfold split_text_into_chunks, pack_loop.
  destruct (nonblank_pages text) as [|page rest].
  - simpl. split; [tauto|]. intros (p & r & H & _). discriminate.
  - inversion Hall as [|? ? Hp Hrest]; subst. cbn [fold_left].
    destruct (Z.gtb_spec (len EmptyString + len page) (max_tokens * 4))
      as [Hgt|Hle].
    + rewrite pack_step_overflows by lia. cbn [app]. split.
      * intros _. exists page, rest. split; [reflexivity|].
        change (len EmptyString) with 0 in Hgt. lia.
      * intros _.
        destruct (flush_open (max_tokens * 4) rest [EmptyString] page Hp Hrest)
          as (s & t & ->).
        now left.
    + rewrite pack_step_fits by lia. split.
      * intros Hin. exfalso.
        pose proof (flush_truthy (max_tokens * 4) rest []
                      (EmptyString ++ page_sep ++ page) Hrest
                      (Forall_nil _) eq_refl) as Ht.
        rewrite Forall_forall in Ht.
        specialize (Ht _ Hin). discriminate.
      * intros (p & r & Heq & Hgt). injection Heq as <- <-.
        change (len EmptyString) with 0 in Hle. lia.
Qed.

Lemma flush_count (max_chars : Z) (pages : list string) :
  forall chunks current,
    (List.length (flush (fold_left (pack_step max_chars) pages
                                   (chunks, current)))
     <= List.length chunks + 1 + List.length pages)%nat.
Proof.
  induction pages as [|page pages IH]; intros chunks current.
  - simpl. destruct (truthy current); [rewrite length_app; simpl|]; lia.
  - cbn [fold_left].
    destruct (Z.gtb_spec (len current + len page) max_chars) as [Hgt|Hle].
    + rewrite pack_step_overflows by lia.
      specialize (IH (chunks ++ [current])%list page).
      rewrite length_app in IH. cbn [List.length] in *. lia.
    + rewrite pack_step_fits by lia.
      specialize (IH chunks (current ++ page_sep ++ page)).
      cbn [List.length]. lia.
Qed.

(** X3.  There are never more chunks than pages plus one, and there is no
    chunk at all exactly when no page is left after the blank ones are
    dropped. *)
Theorem chunk_count (text : string) (max_tokens : Z) :
  (List.length (split_text_into_chunks text max_tokens)
   <= List.length (nonblank_pages text) + 1)%nat /\
  (split_text_into_chunks text max_tokens = [] <-> nonblank_pages text = []).
Proof.
  split.
  - unfold split_text_into_chunks, pack_loop.
    pose proof (flush_count (max_tokens * 4) (nonblank_pages text) []
                  EmptyString) as H.
    simpl in H. lia.
  - pose proof (nonblank_pages_truthy text) as Hall.
    unfold split_text_into_chunks, pack_loop.
    destruct (nonblank_pages text) as [|page rest]; [simpl; tauto|].
    inversion Hall as [|? ? Hp Hrest]; subst. split; [|discriminate].
    cbn [fold_left]. intros H. exfalso.
    destruct (Z.gtb_spec (len EmptyString + len page) (max_tokens * 4))
      as [Hgt|Hle].
    + rewrite pack_step_overflows in H by lia. cbn [app] in H.
      destruct (flush_open (max_tokens * 4) rest [EmptyString] page Hp Hrest)
        as (s & t & Heq).
      rewrite Heq in H. discriminate.
    + rewrite pack_step_fits in H by lia.
      destruct (flush_open (max_tokens * 4) rest []
                  (EmptyString ++ page_sep ++ page) eq_refl Hrest)
        as (s & t & Heq).
      rewrite Heq in H. discriminate.
Qed.

Lemma len_joined_cons (page : string) (pages : list string) :
  len (joined (page :: pages)) = 18 + len page + len (joined pages).
Proof.
  cbn [joined fold_right]. rewrite !len_append.
  change (len page_sep) with 18. unfold joined. lia.
Qed.

Lemma pack_all_fit (max_chars : Z) (pages : list string) :
  forall chunks current,
    len current + len (joined pages) <= max_chars + 18 ->
    fold_left (pack_step max_chars) pages (chunks, current)
    = (chunks, current ++ joined pages).
Proof.
  induction pages as [|page pages IH]; intros chunks current Hlen.
  - simpl. now rewrite append_nil_r.
  - rewrite len_joined_cons in Hlen.
    assert (0 <= len (joined pages)) by apply len_nonneg.
    cbn [fold_left]. rewrite pack_step_fits by lia.
    rewrite IH.
    + cbn [joined fold_right]. now rewrite !append_assoc.
    + rewrite !len_append. change (len page_sep) with 18. lia.
Qed.

(** X4.  A document that fits the budget is one chunk: when the pages, each
    with the separator in front, come to at most [max_tokens * 4 + 18]
    characters, that text is the only chunk. *)
Theorem within_budget_one_chunk (text : string) (max_tokens : Z) :
  nonblank_pages text <> [] ->
  len (joined (nonblank_pages text)) <= max_tokens * 4 + 18 ->
  split_text_into_chunks text max_tokens = [joined (nonblank_pages text)].
Proof.
  intros Hne Hlen. unfold split_text_into_chunks, pack_loop.
  rewrite pack_all_fit by (change (len EmptyString) with 0; lia).
  simpl. destruct (nonblank_pages text) as [|page rest]; [contradiction|].
  reflexivity.
Qed.

Lemma within_budget_one_chunk_witness :
  split_text_into_chunks test_text 100 = [joined (nonblank_pages test_text)].
Proof.
  apply within_budget_one_chunk.
  - vm_compute. discriminate.
  - vm_compute. discriminate.
Defined.

Lemma re_split_from_blank (s : string) :
  forall skip cur,
    has_ink cur = false -> has_ink s = false ->
    Forall (fun piece => has_ink piece = false) (re_split_from skip cur s).
Proof.
  induction s as [|c s IH]; intros skip cur Hcur Hs.
  - simpl. now constructor.
  - simpl in Hs. apply orb_false_iff in Hs as [Hc Hs].
    cbn [re_split_from]. destruct skip as [|k]; [|now apply IH].
    destruct (marker_length (String c s)) as [[|k]|].
    + apply IH; [|exact Hs]. rewrite has_ink_append, Hcur. simpl.
      now rewrite Hc.
    + constructor; [exact Hcur | now apply IH].
    + apply IH; [|exact Hs]. rewrite has_ink_append, Hcur. simpl.
      now rewrite Hc.
Qed.

(** X5.  A text of whitespace only, the empty text included, gives no chunk. *)
Theorem blank_text_no_chunks (text : string) (max_tokens : Z) :
  has_ink text = false ->
  split_text_into_chunks text max_tokens = [].
Proof.
  intros Hblank.
  assert (Hpages : nonblank_pages text = []).
  { rewrite nonblank_pages_ink.
    pose proof (re_split_from_blank text 0 EmptyString eq_refl Hblank) as H.
    fold (re_split text) in H.
    induction H as [|piece pieces Hp _ IH]; [reflexivity|].
    simpl. now rewrite Hp. }
  unfold split_text_into_chunks. now rewrite Hpages.
Qed.

Lemma blank_text_no_chunks_witness :
  split_text_into_chunks (TextExtractor.nl ++ "   " ++ TextExtractor.nl) 10
  = [].
Proof. apply blank_text_no_chunks. reflexivity. Defined.

End ChunkerMore.

(** ** From the text extractor to the chunker *)

Module RoundTrip.
Import PyStr Chunker Spec PyStrFacts ChunkerFacts.

Lemma drop_prefix_append (p s : string) : drop_prefix p (p ++ s) = Some s.
Proof.
  induction p as [|a p IH]; simpl; [reflexivity|].
  now rewrite Ascii.eqb_refl.
Qed.

Lemma occurs_append (c : ascii) (a b : string) :
  occurs c (a ++ b) = occurs c a || occurs c b.
Proof.
  induction a as [|x a IH]; simpl; [reflexivity|].
  now rewrite IH, orb_assoc.
Qed.

Lemma digits_of_uint (d : Decimal.uint) :
  all_digits (NilEmpty.string_of_uint d) = true.
Proof. induction d; simpl; auto. Qed.

(** [str(n)] is a digit followed by digits. *)
Lemma of_nat_digits (n : nat) :
  exists c ds,
    of_nat n = String c ds /\ isdigit c = true /\ all_digits ds = true.
Proof.
  unfold of_nat, NilZero.string_of_uint.
  destruct (Nat.to_uint n) as [|d|d|d|d|d|d|d|d|d|d];
    [exists "0"%char, EmptyString; auto|..];
    cbn [NilEmpty.string_of_uint]; eexists; eexists;
    (split; [reflexivity|]); (split; [reflexivity | apply digits_of_uint]).
Qed.

Lemma skip_digits_run (ds rest : string) :
  all_digits ds = true ->
  skip_digits (ds ++ String " " rest) = String " " rest.
Proof.
  induction ds as [|c ds IH]; intros H; [reflexivity|].
  simpl in H. apply andb_true_iff in H as [Hc Hds].
  simpl. rewrite Hc. now apply IH.
Qed.

(** The text the pattern matches for page [n]. *)
Lemma match_marker_page (n : nat) (rest : string) :
  match_marker (("===== Page " ++ of_nat n ++ " =====") ++ rest) = Some rest.
Proof.
  unfold match_marker. rewrite append_assoc, drop_prefix_append.
  destruct (of_nat_digits n) as (c & ds & -> & Hc & Hds).
  cbn [append]. rewrite Hc. rewrite append_assoc.
  change (" =====" ++ rest) with (String " " ("=====" ++ rest)).
  rewrite skip_digits_run by exact Hds.
  apply (drop_prefix_append " =====" rest).
Qed.

Lemma re_split_from_skip (a : string) :
  forall cur rest,
    re_split_from (String.length a) cur (a ++ rest) = re_split_from 0 cur rest.
Proof.
  induction a as [|c a IH]; intros cur rest; [reflexivity|].
  simpl. apply IH.
Qed.

Lemma re_split_from_marker (n : nat) (cur rest : string) :
  re_split_from 0 cur (("===== Page " ++ of_nat n ++ " =====") ++ rest)
  = cur :: re_split_from 0 EmptyString rest.
Proof.
  remember ("===== Page " ++ of_nat n ++ " =====") as m eqn:Hm.
  assert (Hlen : marker_length (m ++ rest) = Some (String.length m)).
  { unfold marker_length. rewrite Hm, match_marker_page, <- Hm.
    rewrite length_append. f_equal. lia. }
  destruct m as [|c m]; [discriminate|].
  cbn [append] in *. cbn [re_split_from]. rewrite Hlen.
  cbn [String.length]. f_equal. apply re_split_from_skip.
Qed.

(** No match starts at a character other than [=]. *)
Lemma re_split_from_plain (t : string) :
  forall cur rest,
    occurs "=" t = false ->
    re_split_from 0 cur (t ++ rest) = re_split_from 0 (cur ++ t) rest.
Proof.
  induction t as [|c t IH]; intros cur rest H.
  - simpl. now rewrite append_nil_r.
  - simpl in H. apply orb_false_iff in H as [Hc Ht].
    cbn [append re_split_from].
    assert (Hm : marker_length (String c (t ++ rest)) = None).
    { unfold marker_length, match_marker. cbn [drop_prefix].
      rewrite Ascii.eqb_sym, Hc. reflexivity. }
    rewrite Hm, IH by exact Ht. now rewrite append_assoc.
Qed.

Lemma re_split_from_document (texts : list string) :
  forall k cur,
    Forall (fun t => occurs "=" t = false) texts ->
    re_split_from 0 cur (document_text_from k texts)
    = cur :: map page_block texts.
Proof.
  induction texts as [|t texts IH]; intros k cur Hall; [reflexivity|].
  inversion Hall as [|? ? Ht Hrest]; subst.
  cbn [document_text_from map]. unfold TextExtractor.page_marker.
  replace (("===== Page " ++ of_nat (k + 1) ++ " =====" ++ TextExtractor.nl)
           ++ t ++ TextExtractor.nl ++ TextExtractor.nl
           ++ document_text_from (S k) texts)
    with (("===== Page " ++ of_nat (k + 1) ++ " =====")
          ++ page_block t ++ document_text_from (S k) texts)
    by (unfold page_block; now rewrite !append_assoc).
  rewrite re_split_from_marker. f_equal.
  rewrite re_split_from_plain.
  - now apply IH.
  - unfold page_block. now rewrite !occurs_append, Ht.
Qed.

Lemma has_ink_page_block (t : string) : has_ink (page_block t) = has_ink t.
Proof.
  unfold page_block, TextExtractor.nl. simpl.
  rewrite has_ink_append. simpl. now rewrite orb_false_r.
Qed.

(** X6.  The chunker recovers the pages the extractor wrote.  For page texts
    in which [=] does not occur, splitting the document text gives an
    empty piece, then one block per page in page order; the pages the
    chunker packs are the blocks of the pages that are not blank. *)
Theorem pages_split_back (texts : list string) :
  Forall (fun t => occurs "=" t = false) texts ->
  re_split (document_text texts) = EmptyString :: map page_block texts /\
  nonblank_pages (document_text texts)
  = map page_block (filter has_ink texts).
Proof.
  intros Hall.
  assert (Hsplit : re_split (document_text texts)
                   = EmptyString :: map page_block texts)
    by (now apply re_split_from_document).
  split; [exact Hsplit|].
  rewrite nonblank_pages_ink, Hsplit. cbn [filter has_ink]. clear.
  induction texts as [|t texts IH]; [reflexivity|].
  cbn [map filter]. rewrite has_ink_page_block.
  destruct (has_ink t); cbn [map]; now rewrite IH.
Qed.

Lemma pages_split_back_witness :
  re_split (document_text ["Invoice Number: INV12345"; EmptyString; "Total"])
  = EmptyString
    :: map page_block ["Invoice Number: INV12345"; EmptyString; "Total"] /\
  nonblank_pages
    (document_text ["Invoice Number: INV12345"; EmptyString; "Total"])
  = map page_block
        (filter has_ink ["Invoice Number: INV12345"; EmptyString; "Total"]).
Proof.
  apply pages_split_back. repeat constructor.
Defined.

End RoundTrip.

(** ** More on the text extractor *)

Module TextMore.
Import PyStr Py Lib TextExtractor Spec PyStrFacts MonadFacts.
Local Open Scope py_scope.

Section WithEnv.
Variable E : Env.

Lemma fitz_loop (doc : fitz_document E) (n : nat) :
  forall k text w,
    (forall i, (k <= i < k + n)%nat ->
       forall w0, exists page w1,
         load_page E doc i w0 = (Ok page, w1) /\
         forall w2, exists t w3, get_text E page w2 = (Ok t, w3)) ->
    exists texts w',
      List.length texts = n /\
      (forall i t, nth_error texts i = Some t ->
                   fitz_renders E doc (k + i) t) /\
      foldM (fun text page_num =>
               page <- load_page E doc page_num ;;
               let text := text ++ page_marker (page_num + 1) in
               page_text <- get_text E page ;;
               ret (text ++ page_text ++ nl ++ nl))
            (seq k n) text w
      = (Ok (text ++ document_text_from k texts), w').
Proof.
  induction n as [|n IH]; intros k text w Hall.
  - exists [], w. split; [reflexivity|]. split.
    + intros [|i] t H; discriminate.
    + simpl. now rewrite append_nil_r.
  - destruct (Hall k ltac:(lia) w) as (page & w1 & Hload & Hget).
    destruct (Hget w1) as (t & w2 & Ht).
    destruct (IH (S k) ((text ++ page_marker (k + 1)) ++ t ++ nl ++ nl) w2)
      as (texts & w' & Hlen & Hren & Hloop).
    { intros i Hi. apply Hall. lia. }
    exists (t :: texts), w'. split; [simpl; now rewrite Hlen|]. split.
    + intros [|i] t' Hnth.
      * simpl in Hnth. injection Hnth as <-. rewrite Nat.add_0_r.
        now exists page, w, w1, w1, w2.
      * simpl in Hnth. replace (k + S i)%nat with (S k + i)%nat by lia.
        now apply Hren.
    + cbn [seq foldM]. unfold bind at 1. unfold bind at 1.
      rewrite Hload. unfold bind at 1. rewrite Ht. unfold ret at 1.
      cbv beta iota zeta in Hloop |- *. rewrite Hloop.
      cbn [document_text_from]. now rewrite !append_assoc.
Qed.

(** X7.  The PyMuPDF extractor writes the same document text as the other
    two: when the document opens and each of its [len] pages loads and
    renders without raising, the result is, page after page, the marker,
    the page's text and a blank line. *)
Theorem fitz_pages_render_in_order (pdf_content : list byte) (w w1 : world E)
    (doc : fitz_document E) :
  fitz_open E pdf_content w = (Ok doc, w1) ->
  (forall i, (i < fitz_len E doc)%nat ->
     forall w0, exists page w2,
       load_page E doc i w0 = (Ok page, w2) /\
       forall w3, exists t w4, get_text E page w3 = (Ok t, w4)) ->
  exists texts w',
    List.length texts = fitz_len E doc /\
    (forall i t, nth_error texts i = Some t -> fitz_renders E doc i t) /\
    extract_text_from_pdf_fitz E pdf_content w = (Ok (document_text texts), w').
Proof.
  intros Hopen Hall.
  destruct (fitz_loop doc (fitz_len E doc) 0%nat EmptyString w1)
    as (texts & w' & Hlen & Hren & Hloop).
  { intros i Hi. apply Hall. lia. }
  exists texts, w'. split; [exact Hlen|]. split; [exact Hren|].
  unfold extract_text_from_pdf_fitz.
  rewrite (bind_ok _ _ _ _ _ Hopen). exact Hloop.
Qed.

End WithEnv.

Lemma fitz_pages_render_in_order_witness :
  exists texts w',
    List.length texts = 2%nat /\
    (forall i t, nth_error texts i = Some t ->
       fitz_renders blank_second_page
         [Ok "Invoice Number: INV12345"; Ok EmptyString] i t) /\
    extract_text_from_pdf_fitz blank_second_page [] 0%nat
    = (Ok (document_text texts), w').
Proof.
  apply (fitz_pages_render_in_order blank_second_page [] 0%nat 1%nat
           [Ok "Invoice Number: INV12345"; Ok EmptyString] eq_refl).
  intros i Hi w0.
  destruct i as [|[|i]]; [| |simpl in Hi; lia].
  - exists (Ok "Invoice Number: INV12345"), (S w0).
    split; [reflexivity|]. intros w3. now exists "Invoice Number: INV12345", (S w3).
  - exists (Ok EmptyString), (S w0).
    split; [reflexivity|]. intros w3. now exists EmptyString, (S w3).
Defined.

End TextMore.

(** ** More on the extraction client *)

Module ClientMore.
Import PyStr Py Lib ExtractionClient Spec PyStrFacts ClientFacts.




Section WithEnv.
Variable E : Env.



(** X9.  A 200 response is read outside the [try] block, and inside it only a
    decoding error is caught.  So the client raises, and does not return
    the empty list, when the body is not JSON ([JSONDecodeError]), when
    it has no [choices] ([KeyError]), when [choices] is empty
    ([IndexError]), and when the completion content is not a string
    ([AttributeError]). *)
Theorem malformed_completion_raises (api_key chunk : string)
    (w w' : world E) (resp : response) :
  requests_post E (payload api_key chunk) w = (Ok resp, w') ->
  status_code resp = 200 ->
  (json resp = None ->
     extract_invoice_data_from_chunk E api_key chunk w
     = (Raise JSONDecodeError, w')) /\
  (forall items,
     json resp = Some (PDict items) -> lookup "choices" items = None ->
     extract_invoice_data_from_chunk E api_key chunk w
     = (Raise KeyError, w')) /\
  (forall items,
     json resp = Some (PDict items) ->
     lookup "choices" items = Some (PList []) ->
     extract_invoice_data_from_chunk E api_key chunk w
     = (Raise IndexError, w')) /\
  (forall data content,
     json resp = Some data -> message_content data = Ok content ->
     is_str content = false ->
     extract_invoice_data_from_chunk E api_key chunk w
     = (Raise AttributeError, w')).
Proof.
  intros Hpost Hs. rewrite (from_chunk_response E _ _ _ _ _ Hpost).
  unfold handle_response. rewrite Hs. cbn [Z.eqb Pos.eqb].
  split; [|split; [|split]].
  - intros ->. reflexivity.
  - intros items -> Hl. unfold message_content. simpl. now rewrite Hl.
  - intros items -> Hl. unfold message_content. simpl. now rewrite Hl.
  - intros data content -> Hc Hstr. simpl. rewrite Hc. simpl.
    now destruct content.
Qed.

End WithEnv.


Lemma malformed_completion_raises_witness :
  extract_invoice_data_from_chunk null_content "mock_api_key" test_text 0%nat
  = (Raise AttributeError, 1%nat).
Proof.
  destruct (malformed_completion_raises null_content "mock_api_key" test_text
              0%nat 1%nat
              {| status_code := 200; text := EmptyString;
                 json := Some (completion PNone) |}
              eq_refl eq_refl) as (_ & _ & _ & H).
  apply (H (completion PNone) PNone); reflexivity.
Defined.

End ClientMore.

(** ** More on the aggregator *)

Module AggregatorMore.
Import PyStr Py Lib Aggregator Spec PyStrFacts AggregatorFacts.
Local Open Scope list_scope.

Section WithEnv.
Variable E : Env.

Local Abbreviation identity := (Spec.identity E).
Local Abbreviation first_seen := (Spec.first_seen E).

Lemma all_dicts (xs : list pyval) :
  forallb is_dict xs = true -> exists rs, xs = map PDict rs.
Proof.
  induction xs as [|x xs IH]; intros H; [now exists []|].
  simpl in H. apply andb_true_iff in H as [Hx Hxs].
  destruct (IH Hxs) as (rs & ->).
  destruct x; try discriminate. now exists (items :: rs).
Qed.

Lemma dedup_step_dict (unique : list (string * pyval)) (r : record) :
  exists unique', dedup_step E unique (PDict r) = Ok unique'.
Proof.
  unfold dedup_step. rewrite invoice_id_dict. simpl.
  destruct (negb (has_key (identity r) unique)); eexists; reflexivity.
Qed.

Lemma dedup_loop_not_dict (xs : list pyval) :
  forall unique,
    forallb is_dict xs = false ->
    foldR (dedup_step E) xs unique = Raise AttributeError.
Proof.
  induction xs as [|x xs IH]; intros unique H; [discriminate|].
  simpl in H. cbn [foldR].
  destruct (is_dict x) eqn:Hx.
  - destruct x; try discriminate.
    destruct (dedup_step_dict unique items) as (u & ->).
    simpl in H. cbn [bindR]. now apply IH.
  - destruct x; try discriminate; reflexivity.
Qed.

(** X10.  Deduplication is for lists of [dict]s: on such a list it returns, and
    as soon as one item is anything else (a number, a string, a list,
    [null]) it raises [AttributeError] and returns no record at all. *)
Theorem deduplicate_needs_dicts (xs : list pyval) :
  (forallb is_dict xs = true ->
     exists rs,
       xs = map PDict rs /\
       deduplicate E xs = Ok (map PDict (first_seen [] rs))) /\
  (forallb is_dict xs = false -> deduplicate E xs = Raise AttributeError).
Proof.
  split; intros H.
  - destruct (all_dicts xs H) as (rs & ->). exists rs.
    split; [reflexivity | apply deduplicate_records].
  - unfold deduplicate. now rewrite dedup_loop_not_dict.
Qed.

(** X11.  Records whose identities are pairwise distinct all come back, in the
    order they went in. *)
Theorem distinct_records_kept (rs : list record) :
  NoDup (map identity rs) ->
  deduplicate E (map PDict rs) = Ok (map PDict rs).
Proof.
  intros Hnd. rewrite deduplicate_records. do 2 f_equal.
  apply first_seen_id; [exact Hnd|]. intros r _ [].
Qed.

(** Starting with some identities already seen only filters the result. *)
Lemma first_seen_filter (b : list record) :
  forall s1 s2,
    first_seen (s1 ++ s2) b
    = filter (fun r => negb (mem (identity r) s1)) (first_seen s2 b).
Proof.
  induction b as [|r b IH]; intros s1 s2; [reflexivity|].
  cbn [Spec.first_seen]. rewrite mem_app.
  destruct (mem (identity r) s2) eqn:H2.
  - rewrite orb_true_r. apply IH.
  - rewrite orb_false_r. cbn [filter].
    destruct (mem (identity r) s1) eqn:H1; cbn [negb].
    + rewrite <- IH. apply first_seen_ext. intros k.
      rewrite !mem_app. simpl.
      destruct (String.eqb_spec k (identity r)) as [->|]; [|reflexivity].
      rewrite H1. reflexivity.
    + f_equal. rewrite <- IH. apply first_seen_ext. intros k.
      rewrite !mem_app. simpl. rewrite !mem_app.
      destruct (k =? identity r)%string; simpl;
        [now rewrite orb_true_r | reflexivity].
Qed.

(** X12.  Deduplicating two batches together is deduplicating the first, then
    adding from the deduplicated second batch the records whose identity
    the first batch does not have. *)
Theorem deduplicate_concat (a b : list record) :
  exists out_a out_b,
    deduplicate E (map PDict a) = Ok (map PDict out_a) /\
    deduplicate E (map PDict b) = Ok (map PDict out_b) /\
    deduplicate E (map PDict (a ++ b))
    = Ok (map PDict
            (out_a ++ filter (fun r => negb (mem (identity r)
                                              (map identity a))) out_b)).
Proof.
  exists (first_seen [] a), (first_seen [] b).
  split; [apply deduplicate_records|]. split; [apply deduplicate_records|].
  rewrite deduplicate_records. do 2 f_equal.
  rewrite first_seen_app. f_equal. apply first_seen_filter.
Qed.

Lemma first_seen_length (rs : list record) :
  forall seen, (List.length (first_seen seen rs) <= List.length rs)%nat.
Proof.
  induction rs as [|r rs IH]; intros seen; simpl; [lia|].
  destruct (mem (identity r) seen).
  - specialize (IH seen). lia.
  - specialize (IH (identity r :: seen)). simpl. lia.
Qed.

(** X13.  Deduplication loses no identity and invents none: the identities of
    the records returned are those of the records given; and it never
    returns more records than it was given. *)
Theorem deduplicate_keeps_identities (rs : list record) :
  exists out,
    deduplicate E (map PDict rs) = Ok (map PDict out) /\
    (forall key, In key (map identity out) <-> In key (map identity rs)) /\
    (List.length out <= List.length rs)%nat.
Proof.
  exists (first_seen [] rs). split; [apply deduplicate_records|].
  split; [|apply first_seen_length].
  intros key. split; intros Hin.
  - apply in_map_iff in Hin as (r & <- & Hr).
    apply (first_seen_In E rs [] r) in Hr as (pre & post & -> & _).
    apply in_map. apply in_app_iff. right. now left.
  - apply in_map_iff in Hin as (r & <- & Hr).
    destruct (PipelineFacts.first_seen_covers E rs [] r Hr)
      as [[]|(r' & Hr' & Hid)].
    rewrite <- Hid. now apply in_map.
Qed.

End WithEnv.

Lemma deduplicate_needs_dicts_witness :
  deduplicate idle [PDict sample_record; PInt 7; PDict record_A_12]
  = Raise AttributeError.
Proof.
  apply (deduplicate_needs_dicts idle). reflexivity.
Defined.

Lemma distinct_records_kept_witness :
  deduplicate idle (map PDict [sample_record; record_A_12])
  = Ok (map PDict [sample_record; record_A_12]).
Proof.
  apply (distinct_records_kept idle). simpl.
  constructor; [|constructor; [|constructor]].
  - intros [H|[]]. discriminate.
  - intros [].
Defined.

End AggregatorMore.

(** ** More on the pipeline *)

Module PipelineMore.
Import PyStr Py Lib Spec PyStrFacts MonadFacts AggregatorFacts PipelineFacts.
Local Open Scope list_scope.

Lemma blank_has_no_equals (t : string) :
  has_ink t = false -> occurs "=" t = false.
Proof.
  induction t as [|c t IH]; intros H; [reflexivity|].
  simpl in H. apply orb_false_iff in H as [Hc Ht].
  simpl. rewrite (IH Ht), orb_false_r.
  destruct (Ascii.eqb_spec c "="%char) as [->|]; [discriminate | reflexivity].
Qed.

Lemma blank_pages_no_chunks (texts : list string) (max_tokens : Z) :
  Forall (fun t => has_ink t = false) texts ->
  Chunker.split_text_into_chunks (document_text texts) max_tokens = [].
Proof.
  intros Hall.
  assert (Hpages : Chunker.nonblank_pages (document_text texts) = []).
  { rewrite ChunkerFacts.nonblank_pages_ink. unfold Chunker.re_split.
    unfold document_text. rewrite RoundTrip.re_split_from_document.
    - cbn [filter has_ink].
      induction Hall as [|t texts Ht _ IH]; [reflexivity|].
      cbn [map filter]. now rewrite RoundTrip.has_ink_page_block, Ht.
    - eapply Forall_impl; [|exact Hall]. apply blank_has_no_equals. }
  unfold Chunker.split_text_into_chunks. now rewrite Hpages.
Qed.

Section WithEnv.
Variable E : Env.
Variable api_key : string.

Local Abbreviation chunks_of text :=
  (Chunker.split_text_into_chunks text Chunker.default_max_tokens).

(** Whatever makes the client raise on a chunk ends the chunk loop. *)
Lemma chunk_error_discards (before after : list string) (chunk : string)
    (w w1 w2 : world E) (all : list pyval) (e : exn) :
  Pipeline.process_chunks E api_key before w = (Ok all, w1) ->
  ExtractionClient.extract_invoice_data_from_chunk E api_key chunk w1
    = (Raise e, w2) ->
  Pipeline.process_chunks E api_key (before ++ chunk :: after) w
  = (Raise e, w2).
Proof.
  rewrite !process_chunks_plain. intros Hbefore Hchunk.
  rewrite foldM_app, (bind_ok _ _ _ _ _ Hbefore). cbn [foldM].
  apply bind_raise. unfold add_chunk. apply bind_raise.
  unfold chunk_items. now apply bind_raise.
Qed.

(** X14.  A run has no partial result.  It ends with the exception, and with
    no record, when the text extraction raises; when the client raises on
    any chunk, whatever the chunks before it have yielded; and with
    [AttributeError] when some item the chunks yielded is not a [dict]. *)
Theorem run_fails_whole (pdf_content : list byte) (w : world E) :
  (forall e w1,
     TextExtractor.extract_text_from_pdf E pdf_content w = (Raise e, w1) ->
     Pipeline.extract_invoice_data E api_key pdf_content w = (Raise e, w1)) /\
  (forall text w1 before chunk after all w2 e w3,
     TextExtractor.extract_text_from_pdf E pdf_content w = (Ok text, w1) ->
     chunks_of text = before ++ chunk :: after ->
     Pipeline.process_chunks E api_key before w1 = (Ok all, w2) ->
     ExtractionClient.extract_invoice_data_from_chunk E api_key chunk w2
       = (Raise e, w3) ->
     Pipeline.extract_invoice_data E api_key pdf_content w = (Raise e, w3)) /\
  (forall text w1 all w2,
     TextExtractor.extract_text_from_pdf E pdf_content w = (Ok text, w1) ->
     Pipeline.process_chunks E api_key (chunks_of text) w1 = (Ok all, w2) ->
     forallb is_dict all = false ->
     Pipeline.extract_invoice_data E api_key pdf_content w
     = (Raise AttributeError, w2)).
Proof.
  split; [|split].
  - intros e w1 Htext. unfold Pipeline.extract_invoice_data.
    now apply bind_raise.
  - intros text w1 before chunk after all w2 e w3 Htext Hchunks Hbefore Hraise.
    unfold Pipeline.extract_invoice_data.
    rewrite (bind_ok _ _ _ _ _ Htext). apply bind_raise.
    rewrite Hchunks. now apply chunk_error_discards with w2 all.
  - intros text w1 all w2 Htext Hchunks Hall.
    unfold Pipeline.extract_invoice_data.
    rewrite (bind_ok _ _ _ _ _ Htext), (bind_ok _ _ _ _ _ Hchunks).
    unfold lift, Aggregator.deduplicate.
    now rewrite AggregatorMore.dedup_loop_not_dict.
Qed.

(** X15.  A document on which nothing is read costs no request: when every
    page renders to whitespace only, or there is no page, the run
    returns the empty list in the world the text extraction left. *)
Theorem blank_document_no_request (pdf_content : list byte)
    (w w1 : world E) (texts : list string) :
  TextExtractor.extract_text_from_pdf E pdf_content w
    = (Ok (document_text texts), w1) ->
  Forall (fun t => has_ink t = false) texts ->
  Pipeline.extract_invoice_data E api_key pdf_content w = (Ok [], w1).
Proof.
  intros Htext Hblank. unfold Pipeline.extract_invoice_data.
  rewrite (bind_ok _ _ _ _ _ Htext).
  rewrite blank_pages_no_chunks by exact Hblank. reflexivity.
Qed.

(** X16.  What a run returns is a list of [dict]s with pairwise distinct
    identities. *)
Theorem run_output_distinct (pdf_content : list byte) (w : world E)
    (out : list pyval) :
  fst (Pipeline.extract_invoice_data E api_key pdf_content w) = Ok out ->
  exists rs, out = map PDict rs /\ NoDup (map (identity E) rs).
Proof.
  intros Hrun.
  destruct (Pipeline.extract_invoice_data E api_key pdf_content w)
    as [r w'] eqn:Hr.
  simpl in Hrun. subst r. unfold Pipeline.extract_invoice_data in Hr.
  apply bind_ok_inv in Hr as (text & w1 & _ & Hr).
  apply bind_ok_inv in Hr as (all & w2 & _ & Hdedup).
  unfold lift in Hdedup. injection Hdedup as Hdedup _.
  apply deduplicate_ok_inv in Hdedup as (rs & _ & ->).
  exists (first_seen E [] rs). split; [reflexivity|].
  apply first_seen_NoDup.
Qed.

End WithEnv.

Lemma run_fails_whole_witness :
  Pipeline.extract_invoice_data unreachable_endpoint "mock_api_key" [] 0%nat
  = (Raise (LibraryError "ConnectionError"), 3%nat).
Proof.
  destruct (run_fails_whole unreachable_endpoint "mock_api_key" [] 0%nat)
    as (_ & H & _).
  eapply (H _ 2%nat [] _ [] [] 2%nat).
  - vm_compute. reflexivity.
  - vm_compute. reflexivity.
  - reflexivity.
  - vm_compute. reflexivity.
Defined.

Lemma blank_document_no_request_witness :
  Pipeline.extract_invoice_data all_blank "mock_api_key" [] 0%nat
  = (Ok [], 3%nat).
Proof.
  apply (blank_document_no_request all_blank "mock_api_key" [] 0%nat 3%nat
           [EmptyString; "   "]).
  - vm_compute. reflexivity.
  - repeat constructor.
Defined.

Lemma run_output_distinct_witness :
  exists rs,
    [PDict sample_record] = map PDict rs /\
    NoDup (map (identity sample_run) rs).
Proof.
  apply (run_output_distinct sample_run "mock_api_key" [] 0%nat).
  vm_compute. reflexivity.
Defined.

End PipelineMore.

(** ** The column widths *)

Module ExportFacts.
Import PyStr Py ExportToExcel PyStrFacts.

Lemma cell_step_le (m : Z) (cell : result string) : m <= cell_step m cell.
Proof.
  destruct cell as [s|e]; cbn [cell_step]; [|lia].
  destruct (Z.gtb_spec (len s) m); lia.
Qed.

Lemma cell_step_ok (m : Z) (s : string) :
  len s <= cell_step m (Ok s) /\
  (cell_step m (Ok s) = m \/ cell_step m (Ok s) = len s).
Proof.
  cbn [cell_step]. destruct (Z.gtb_spec (len s) m); lia.
Qed.

Lemma max_length_from (column : list (result string)) :
  forall m,
    m <= fold_left cell_step column m /\
    (forall s, In (Ok s) column -> len s <= fold_left cell_step column m) /\
    (fold_left cell_step column m = m \/
     exists s, In (Ok s) column /\ fold_left cell_step column m = len s).
Proof.
  induction column as [|cell column IH]; intros m; cbn [fold_left].
  - split; [lia|]. split; [intros s []|now left].
  - destruct (IH (cell_step m cell)) as (Hle & Hall & Hmax).
    pose proof (cell_step_le m cell) as Hstep.
    split; [lia|]. split.
    + intros s [->|Hin]; [|now apply Hall].
      pose proof (cell_step_ok m s). lia.
    + destruct Hmax as [Hmax|(s & Hin & Hmax)].
      * destruct cell as [s|e]; [|left; exact Hmax].
        destruct (cell_step_ok m s) as (_ & [Hs|Hs]).
        -- left. now rewrite Hmax.
        -- right. exists s. split; [now left | now rewrite Hmax].
      * right. exists s. split; [now right | exact Hmax].
Qed.

(** X17.  The width of a column is the length of its longest cell plus two,
    capped at 50: it lies between 2 and 50, no cell asks for more than it
    gets up to the cap, and it is 2 or what one of the cells asks for. *)
Theorem adjusted_width_spec (column : list (result string)) :
  column <> [] ->
  exists width,
    adjusted_width column = Ok width /\
    2 <= width <= 50 /\
    (forall s, In (Ok s) column -> Z.min (len s + 2) 50 <= width) /\
    (width = 2 \/
     exists s, In (Ok s) column /\ width = Z.min (len s + 2) 50).
Proof.
  intros Hne. destruct column as [|cell column]; [contradiction|].
  exists (Z.min (column_max_length (cell :: column) + 2) 50).
  split; [reflexivity|].
  destruct (max_length_from (cell :: column) 0) as (Hle & Hall & Hmax).
  fold (column_max_length (cell :: column)) in Hle, Hall, Hmax.
  split; [lia|]. split.
  - intros s Hin. specialize (Hall s Hin). lia.
  - destruct Hmax as [Hmax|(s & Hin & Hmax)].
    + left. rewrite Hmax. reflexivity.
    + right. exists s. split; [exact Hin|]. now rewrite Hmax.
Qed.

Lemma adjusted_width_spec_witness :
  exists width,
    adjusted_width [Ok "Vendor Name"; Ok "Example Vendor";
                    Raise TypeError] = Ok width /\
    2 <= width <= 50 /\
    (forall s, In (Ok s) [Ok "Vendor Name"; Ok "Example Vendor";
                          Raise TypeError] ->
               Z.min (len s + 2) 50 <= width) /\
    (width = 2 \/
     exists s, In (Ok s) [Ok "Vendor Name"; Ok "Example Vendor";
                          Raise TypeError] /\
               width = Z.min (len s + 2) 50).
Proof.
  apply adjusted_width_spec. discriminate.
Defined.

(** A header of 11 characters over a value of 14: width 16. *)
Example width_of_vendor_column :
  column_widths [[Ok "Vendor Name"; Ok "Example Vendor"];
                 [Ok "Description";
                  Ok "Quarterly landscaping and irrigation services, phase two"]]
  = Ok [16; 50].
Proof. reflexivity. Qed.

End ExportFacts.

(** ** A run over two chunks *)

Module TwoChunks.
Import PyStr Py Lib Spec PyStrFacts MonadFacts ChunkerFacts PipelineFacts.
Local Open Scope list_scope.

Lemma len_xs (p : positive) : len (xs p) = Z.pos p.
Proof.
  induction p as [q IH|q IH|]; cbn [xs].
  - change (String "x" (xs q ++ xs q))
      with (String "x" EmptyString ++ (xs q ++ xs q))%string.
    rewrite !len_append, IH. change (len (String "x" EmptyString)) with 1. lia.
  - rewrite len_append, IH. lia.
  - reflexivity.
Qed.

Lemma occurs_xs (p : positive) : occurs "=" (xs p) = false.
Proof.
  induction p as [q IH|q IH|]; cbn [xs occurs].
  - now rewrite RoundTrip.occurs_append, IH.
  - now rewrite RoundTrip.occurs_append, IH.
  - reflexivity.
Qed.

Lemma has_ink_xs (p : positive) : has_ink (xs p) = true.
Proof.
  induction p as [q IH|q IH|]; cbn [xs].
  - reflexivity.
  - now rewrite has_ink_append, IH.
  - reflexivity.
Qed.

(** The text the scan of [first_answered] renders to. *)
Lemma first_answered_text (t1 t2 : string) (later : result response) :
  TextExtractor.extract_text_from_pdf (first_answered t1 t2 later) [] 0%nat
  = (Ok (document_text [t1; t2]), 3%nat).
Proof.
  unfold TextExtractor.extract_text_from_pdf, document_text.
  cbn [first_answered scripted_full convert_from_bytes image_to_string
       bind foldM enumerate List.length seq combine ret world
       document_text_from].
  now rewrite !append_assoc, append_nil_r.
Qed.

(** Two pages, the first within the budget and the second beyond it,
    are two chunks. *)
Lemma two_pages_two_chunks (t1 t2 : string) (max_tokens : Z) :
  occurs "=" t1 = false -> occurs "=" t2 = false ->
  has_ink t1 = true -> has_ink t2 = true ->
  len (page_block t1) <= max_tokens * 4 ->
  len (page_block t2) > max_tokens * 4 ->
  Chunker.split_text_into_chunks (document_text [t1; t2]) max_tokens
  = [(Chunker.page_sep ++ page_block t1)%string; page_block t2].
Proof.
  intros He1 He2 Hi1 Hi2 Hl1 Hl2.
  assert (Hpages : Chunker.nonblank_pages (document_text [t1; t2])
                   = [page_block t1; page_block t2]).
  { rewrite nonblank_pages_ink. unfold Chunker.re_split, document_text.
    rewrite RoundTrip.re_split_from_document by (repeat constructor; assumption).
    cbn [map filter has_ink].
    now rewrite !RoundTrip.has_ink_page_block, Hi1, Hi2. }
  unfold Chunker.split_text_into_chunks, Chunker.pack_loop.
  rewrite Hpages. cbn [fold_left].
  rewrite pack_step_fits by (change (len EmptyString) with 0; lia).
  pose proof (len_nonneg (EmptyString ++ Chunker.page_sep ++ page_block t1)).
  rewrite pack_step_overflows by lia.
  reflexivity.
Qed.

Lemma long_document_chunks :
  Chunker.split_text_into_chunks
    (document_text ["Invoice Number: INV12345"; long_page])
    Chunker.default_max_tokens
  = [(Chunker.page_sep ++ page_block "Invoice Number: INV12345")%string;
     page_block long_page].
Proof.
  apply two_pages_two_chunks.
  - reflexivity.
  - apply occurs_xs.
  - reflexivity.
  - apply has_ink_xs.
  - vm_compute. discriminate.
  - unfold page_block, long_page. rewrite !len_append, len_xs.
    change (len TextExtractor.nl) with 1.
    unfold Chunker.default_max_tokens. lia.
Qed.

(** The run of [second_chunk_refused]: the record of the first chunk is
    returned although the second chunk is refused. *)
Example refused_chunk_run :
  Pipeline.extract_invoice_data second_chunk_refused "mock_api_key" [] 0%nat
  = (Ok [PDict short_record], 5%nat).
Proof.
  unfold second_chunk_refused, Pipeline.extract_invoice_data.
  rewrite (bind_ok _ _ _ _ _ (first_answered_text _ _ _)).
  rewrite long_document_chunks. vm_compute. reflexivity.
Qed.


End TwoChunks.
